(** * Chess games analyzer: the caching layer and the batch-analysis loop

    A shallow embedding of
      - class [CacheService] and, from the same source file, the method
        [ChessComService.getMonthlyGames] (src/services/CacheService.ts);
      - [PgnParser] and the loop over [rawGames] in the handler of
        [POST /api/analyze] (src/utils/PgnParser.ts);
      - [GameAnalyzer.analyzeGame] (src/analysis/GameAnalyzer.ts).

    Conventions.
      - A JS [Map<string, V>] and a SQLite table with a TEXT PRIMARY KEY are
        finite maps [gmap string V] from the key to the rest of the row.
        [INSERT OR REPLACE] is map insertion under the primary key.
      - [Date.now()] is an argument [now : Z] (milliseconds).  The local
        calendar of [Date] is a pair of functions [getFullYear], [getMonth].
      - A function that can throw returns [option]; [None] is the throw.
      - SQLite statements are taken to succeed: the [err] branches of the
        callbacks are not represented.
      - [String.prototype.toLowerCase] is modelled on the ASCII range.
      - Years and months are integers, printed in decimal in a key. *)

From Stdlib Require Import Ascii String ZArith QArith Lia.
From stdpp Require Import gmap strings list fin_maps pretty.

Set Default Proof Using "Type".

Local Close Scope Q_scope.
Local Open Scope string_scope.
Local Open Scope Z_scope.

(** ** Strings *)

Definition ascii_toLowerCase (c : ascii) : ascii :=
  let n := nat_of_ascii c in
  if ((65 <=? n) && (n <=? 90))%nat then ascii_of_nat (n + 32) else c.

Fixpoint toLowerCase (s : string) : string :=
  match s with
  | EmptyString => EmptyString
  | String c r => String (ascii_toLowerCase c) (toLowerCase r)
  end.

(** [key.startsWith(p)] *)
Definition startsWith (key p : string) : bool := String.prefix p key.

(** A JS string is truthy when it is not empty. *)
Definition truthy (s : string) : bool :=
  match s with EmptyString => false | _ => true end.

(** ** JSON, as far as the cache needs it *)

Class JSON (T : Type) := {
  JSON_stringify : T -> string;
  JSON_parse : string -> option T
}.

(** ** Records of [CacheService.ts] *)

Record CacheEntry (T : Type) := mkCacheEntry {
  data : T;
  timestamp : Z;
  expiresAt : Z
}.
Arguments mkCacheEntry {T} _ _ _.
Arguments data {T} _.
Arguments timestamp {T} _.
Arguments expiresAt {T} _.

(** The fields of a Chess.com game that the modelled code reads. *)
Record ChessComGame := mkChessComGame {
  url : string;
  pgn : string;
  time_control : string;
  end_time : Z;
  rated : bool;
  uuid : string;
  time_class : string;
  rules : string;
  white_username : string;
  white_rating : Z;
  white_result : string;
  black_username : string;
  black_rating : Z;
  black_result : string
}.

(** A row of table [games] without its primary key [uuid]. *)
Record GameRow := mkGameRow {
  game_username : string;
  game_year : Z;
  game_month : Z;
  game_data : string;
  game_cached_at : Z
}.

(** A row of table [analysis] without its primary key [game_uuid]. *)
Record AnalysisRow := mkAnalysisRow {
  analysis_username : string;
  analysis_data : string;
  analysis_cached_at : Z
}.

Definition USER_PROFILE_TTL : Z := 3600000.
Definition MONTHLY_GAMES_TTL : Z := 86400000.
Definition CURRENT_MONTH_TTL : Z := 300000.

(** The fields of class [CacheService]: two in-memory maps and the two
    tables of the SQLite database. *)
Record CacheService (Profile : Type) := mkCacheService {
  userProfileCache : gmap string (CacheEntry Profile);
  monthlyGamesCache : gmap string (CacheEntry (list ChessComGame));
  games : gmap string GameRow;
  analysis : gmap string AnalysisRow
}.
Arguments mkCacheService {Profile} _ _ _ _.
Arguments userProfileCache {Profile} _.
Arguments monthlyGamesCache {Profile} _.
Arguments games {Profile} _.
Arguments analysis {Profile} _.

(** ** Records of [models/Game.ts] *)

Record Player := mkPlayer {
  username : string;
  rating : Z;
  result : string
}.

Record Game := mkGame {
  id : string;
  gameUrl : string;
  gamePgn : string;
  timeControl : string;
  timeClass : string;
  endTime : Z;
  gameRated : bool;
  white : Player;
  black : Player;
  gameRules : string
}.

Inductive Classification := excellent | good | inaccuracy | mistake | blunder.

Inductive Color := colorWhite | colorBlack.

#[global] Instance Color_eq_dec : EqDecision Color.
Proof. solve_decision. Defined.

Record Move := mkMove {
  san : string;
  fen : string;
  moveNumber : Z;
  isWhiteMove : bool;
  evaluation : option Q;
  bestMove : option string;
  classification : option Classification
}.

(** An entry of [chess.history({ verbose: true })]. *)
Record HistoryMove := mkHistoryMove {
  history_san : string;
  history_after : string
}.

(** The result of [MoveAnalyzer.evaluateMove]. *)
Record MoveEvaluation := mkMoveEvaluation {
  eval_move : string;
  eval_evaluation : Q;
  eval_classification : Classification;
  eval_bestMove : option string;
  eval_explanation : string
}.

(** The fields of [GameAnalysis] that [GameAnalyzer.analyzeGame] computes from
    the move loop. *)
Record GameAnalysis := mkGameAnalysis {
  gameId : string;
  moves : list Move;
  playerColor : Color;
  overallAccuracy : Q
}.

(** ** Calls to collaborators made by the analysis loop *)

Inductive Event :=
  | EvParse (gameUuid : string)
  | EvAnalyze (gameUuid : string)
  | EvCacheAnalysis (gameUuid : string).

#[global] Instance Event_eq_dec : EqDecision Event.
Proof. solve_decision. Defined.

#[global] Instance Classification_eq_dec : EqDecision Classification.
Proof. solve_decision. Defined.

(** ** Records of [models/Analysis.ts] built by [identifyMistakePatterns] *)

Inductive PatternType := tactical | positional.
Inductive Severity := minor | moderate | major.

Record PatternExample := mkPatternExample {
  example_gameId : string;
  example_moveNumber : Z;
  example_position : string;
  example_explanation : string
}.

Record MistakePattern := mkMistakePattern {
  pattern_type : PatternType;
  description : string;
  frequency : nat;
  severity : Severity;
  examples : list PatternExample
}.

(** [l.slice(0, n)] for an integer [n]: a negative [n] counts from the end. *)
Definition slice0 {A} (l : list A) (n : Z) : list A :=
  if decide (0 <= n) then take (Z.to_nat n) l
  else take (Z.to_nat (Z.of_nat (length l) + n)) l.

(** [l.slice(-n)] for a positive literal [n]: the last [n] elements. *)
Definition sliceLast {A} (l : list A) (n : nat) : list A :=
  drop (length l - n) l.

(** Whether the separator of the monthly key occurs in a string. *)
Fixpoint hasUnderscore (s : string) : bool :=
  match s with
  | EmptyString => false
  | String c r => bool_decide (c = "_"%char) || hasUnderscore r
  end.

(** Two moves that agree on what the parser produced. *)
Definition sameMove (m m' : Move) : Prop :=
  san m' = san m /\ fen m' = fen m /\ moveNumber m' = moveNumber m
  /\ isWhiteMove m' = isWhiteMove m.

(** ** [MoveAnalyzer]: the helpers that do not need the rules of chess *)

Inductive PieceType := pawn | knight | bishop | rook | queen | king.
Inductive PieceColor := pieceWhite | pieceBlack.

#[global] Instance PieceColor_eq_dec : EqDecision PieceColor.
Proof. solve_decision. Defined.

(** A square of [chess.board()]. *)
Record Piece := mkPiece {
  piece_type : PieceType;
  piece_color : PieceColor
}.

Definition pieceValues (t : PieceType) : Z :=
  match t with
  | pawn => 1 | knight => 3 | bishop => 3 | rook => 5 | queen => 9 | king => 0
  end.

Definition calculateMaterialBalance (board : list (list (option Piece))) : Z :=
  foldl (fun balance row =>
           foldl (fun balance square =>
                    match square with
                    | Some piece =>
                        let value := pieceValues (piece_type piece) in
                        balance + (if decide (piece_color piece = pieceWhite)
                                   then value else - value)
                    | None => balance
                    end)
                 balance row)
        0 board.

(** The thresholds of [classifyMove] and [generateMoveExplanation], as the
    exact values of the doubles that the literals -0.1, -0.25, -0.5 and -1.0
    denote.  An evaluation difference is a finite double, hence a rational. *)
Definition threshold_0_1 : Q := (-3602879701896397 # 36028797018963968)%Q.
Definition threshold_0_25 : Q := (-1 # 4)%Q.
Definition threshold_0_5 : Q := (-1 # 2)%Q.
Definition threshold_1_0 : Q := (-1 # 1)%Q.

Definition classifyMove (evalDiff : Q) (move bestMove : string)
  : Classification :=
  if decide (move = bestMove) then excellent
  else if Qle_bool threshold_0_1 evalDiff then excellent
  else if Qle_bool threshold_0_25 evalDiff then good
  else if Qle_bool threshold_0_5 evalDiff then inaccuracy
  else if Qle_bool threshold_1_0 evalDiff then mistake
  else blunder.

Definition generateMoveExplanation (evalDiff : Q) (move bestMove : string)
  : string :=
  if decide (move = bestMove)
  then "Excellent move! This was the best choice in the position."
  else if Qle_bool threshold_0_1 evalDiff
  then "Good move, very close to the best option."
  else if Qle_bool threshold_0_25 evalDiff
  then "Inaccuracy. Consider " +:+ bestMove +:+ " instead."
  else if Qle_bool threshold_0_5 evalDiff
  then "Mistake. " +:+ bestMove +:+ " would have been much better."
  else "Blunder! This move loses significant material or position. "
       +:+ bestMove +:+ " was the correct move.".

(** The board with the colour of every piece exchanged. *)
Definition swapColor (piece : Piece) : Piece :=
  mkPiece (piece_type piece)
    (match piece_color piece with
     | pieceWhite => pieceBlack
     | pieceBlack => pieceWhite
     end).

Definition swapColors (board : list (list (option Piece)))
  : list (list (option Piece)) :=
  (fun row : list (option Piece) =>
     (fun square : option Piece => swapColor <$> square) <$> row) <$> board.

(** ** Sample data used by the concrete examples *)

(** The calendar of [Date] in the UTC time zone (days-to-civil conversion). *)
Definition utcCivil (ms : Z) : Z * Z :=
  let z := ms / 86400000 + 719468 in
  let era := z / 146097 in
  let doe := z - era * 146097 in
  let yoe := (doe - doe / 1460 + doe / 36524 - doe / 146096) / 365 in
  let doy := doe - (365 * yoe + yoe / 4 - yoe / 100) in
  let mp := (5 * doy + 2) / 153 in
  let m := if mp <? 10 then mp + 3 else mp - 9 in
  let y := yoe + era * 400 in
  (if m <=? 2 then y + 1 else y, m).

Definition utcFullYear (ms : Z) : Z := fst (utcCivil ms).
Definition utcMonth (ms : Z) : Z := snd (utcCivil ms) - 1.

(** Analyses that are already JSON text. *)
Definition textJSON : JSON string :=
  {| JSON_stringify := fun s => s; JSON_parse := fun s => Some s |}.

Definition sampleGame (u p : string) : ChessComGame :=
  mkChessComGame EmptyString p "600" 1700000000 true u "rapid" "chess"
    "alice" 1500 "win" "bob" 1480 "resigned".

Fixpoint splitColon (s : string) : option (string * string) :=
  match s with
  | EmptyString => None
  | String c r =>
      if decide (c = ":"%char) then Some (EmptyString, r)
      else match splitColon r with
           | Some (a, b) => Some (String c a, b)
           | None => None
           end
  end.

(** A codec for sample games: the identifier, a colon, the movetext. *)
Definition sampleGameJSON : JSON ChessComGame :=
  {| JSON_stringify := fun g => uuid g +:+ ":" +:+ pgn g;
     JSON_parse := fun s =>
       match splitColon s with
       | Some (u, p) => Some (sampleGame u p)
       | None => None
       end |}.

(** A movetext loader that rejects the text ["bad"]. *)
Definition sampleLoadPgn (pgnText : string) : option (list HistoryMove) :=
  if decide (pgnText = "bad") then None
  else Some [mkHistoryMove "e4" "fen-1"; mkHistoryMove "e5" "fen-2";
             mkHistoryMove "Nf3" "fen-3"; mkHistoryMove "Nc6" "fen-4"].

(** An analyzer that throws on the game ["g4"]. *)
Definition sampleAnalyze (game : Game) (playerUsername : string)
  : option string :=
  if decide (id game = "g4") then None
  else Some ("analysis of " +:+ id game +:+ " for " +:+ playerUsername).

Definition sampleFetch (n : nat) (username : string) (year month : Z)
  : option (list ChessComGame) :=
  Some [sampleGame "g1" "1. e4 e5"; sampleGame "g2" "1. d4 d5"].

(** A board that is the list of the moves played, and an evaluator that
    calls the knight move a mistake. *)
Definition sampleMove (b : list string) (sanText : string)
  : option (list string) :=
  Some (sanText :: b).
Definition sampleFen (b : list string) : string := String.concat " " b.
Definition sampleEvaluate (beforeFen sanText afterFen : string)
  : option MoveEvaluation :=
  Some (mkMoveEvaluation sanText 0
          (if decide (sanText = "Nf3") then mistake else excellent)
          None EmptyString).

Section Model.

Context {Profile Analysis : Type}.
Context {gameJSON : JSON ChessComGame} {analysisJSON : JSON Analysis}.

(** The local calendar of [Date]: the year, and the month index from 0. *)
Variable getFullYear : Z -> Z.
Variable getMonth : Z -> Z.

(** [chess.loadPgn] followed by [chess.history({ verbose: true })]. *)
Variable loadPgn : string -> option (list HistoryMove).

(** [AIGameAnalyzer.analyzeGame], which calls a remote model. *)
Variable aiAnalyzeGame : Game -> string -> option Analysis.

(** The board of chess.js, as [GameAnalyzer.analyzeGame] drives it. *)
Variable Board : Type.
Variable chess_reset : Board.
Variable chess_move : Board -> string -> option Board.
Variable chess_fen : Board -> string.
Variable evaluateMove : string -> string -> string -> option MoveEvaluation.

(** The [n]-th request sent to the Chess.com archive endpoint; [None] when
    the response is not [ok]. *)
Variable fetchMonth : nat -> string -> Z -> Z -> option (list ChessComGame).

Abbreviation Cache := (CacheService Profile).

Definition emptyCache : Cache := mkCacheService ∅ ∅ ∅ ∅.

Definition set_userProfileCache (s : Cache) m : Cache :=
  mkCacheService m (monthlyGamesCache s) (games s) (analysis s).
Definition set_monthlyGamesCache (s : Cache) m : Cache :=
  mkCacheService (userProfileCache s) m (games s) (analysis s).
Definition set_games (s : Cache) m : Cache :=
  mkCacheService (userProfileCache s) (monthlyGamesCache s) m (analysis s).
Definition set_analysis (s : Cache) m : Cache :=
  mkCacheService (userProfileCache s) (monthlyGamesCache s) (games s) m.

(** *** User profiles (in memory) *)

Definition getCachedUserProfile (username : string) (now : Z) (s : Cache)
  : option Profile * Cache :=
  match userProfileCache s !! toLowerCase username with
  | None => (None, s)
  | Some cached =>
      if decide (now > expiresAt cached) then
        (None, set_userProfileCache s
                 (delete (toLowerCase username) (userProfileCache s)))
      else (Some (data cached), s)
  end.

Definition cacheUserProfile (username : string) (profile : Profile) (now : Z)
  (s : Cache) : Cache :=
  set_userProfileCache s
    (<[toLowerCase username :=
         mkCacheEntry profile now (now + USER_PROFILE_TTL)]>
       (userProfileCache s)).

(** *** Monthly games (in memory) *)

Definition monthlyKey (username : string) (year month : Z) : string :=
  toLowerCase username +:+ "_" +:+ pretty year +:+ "_" +:+ pretty month.

Definition getCachedMonthlyGames (username : string) (year month : Z) (now : Z)
  (s : Cache) : option (list ChessComGame) * Cache :=
  let key := monthlyKey username year month in
  match monthlyGamesCache s !! key with
  | None => (None, s)
  | Some cached =>
      let currentYear := getFullYear now in
      let currentMonth := getMonth now + 1 in
      let expired :=
        if decide (year = currentYear /\ month = currentMonth)
        then bool_decide (now > timestamp cached + CURRENT_MONTH_TTL)
        else bool_decide (now > expiresAt cached) in
      if expired then
        (None, set_monthlyGamesCache s (delete key (monthlyGamesCache s)))
      else (Some (data cached), s)
  end.

Definition cacheMonthlyGames (username : string) (year month : Z)
  (gs : list ChessComGame) (now : Z) (s : Cache) : Cache :=
  set_monthlyGamesCache s
    (<[monthlyKey username year month :=
         mkCacheEntry gs now (now + MONTHLY_GAMES_TTL)]>
       (monthlyGamesCache s)).

(** *** Individual games (SQLite) *)

Definition getCachedGame (gameUuid : string) (s : Cache) : option ChessComGame :=
  match games s !! gameUuid with
  | None => None
  | Some row => JSON_parse (game_data row)
  end.

(** The values bound by the [INSERT OR REPLACE] of [cacheGame], after the
    uuid.  [if (game.end_time)] is false for 0. *)
Definition gameRow (game : ChessComGame) (username : string) (now : Z) : GameRow :=
  let date := end_time game * 1000 in
  let year := if decide (end_time game = 0) then 0 else getFullYear date in
  let month := if decide (end_time game = 0) then 0 else getMonth date + 1 in
  mkGameRow (toLowerCase username) year month (JSON_stringify game) now.

Definition cacheGame (game : ChessComGame) (username : string) (now : Z)
  (s : Cache) : Cache :=
  set_games s (<[uuid game := gameRow game username now]> (games s)).

Definition cacheGames (gs : list ChessComGame) (username : string) (now : Z)
  (s : Cache) : Cache :=
  match gs with
  | [] => s
  | _ => foldl (fun acc game => cacheGame game username now acc) s gs
  end.

(** *** Analyses (SQLite) *)

Definition getCachedAnalysis (gameUuid username : string) (s : Cache)
  : option Analysis :=
  match analysis s !! gameUuid with
  | None => None
  | Some row =>
      if decide (analysis_username row = toLowerCase username)
      then JSON_parse (analysis_data row)
      else None
  end.

Definition cacheAnalysis (gameUuid username : string) (a : Analysis) (now : Z)
  (s : Cache) : Cache :=
  set_analysis s
    (<[gameUuid :=
         mkAnalysisRow (toLowerCase username) (JSON_stringify a) now]>
       (analysis s)).

Definition getCachedAnalyses (username : string) (gameUuids : list string)
  (s : Cache) : gmap string Analysis :=
  match gameUuids with
  | [] => ∅
  | _ =>
      map_imap
        (fun game_uuid row =>
           if decide (analysis_username row = toLowerCase username
                      /\ game_uuid ∈ gameUuids)
           then JSON_parse (analysis_data row)
           else None)
        (analysis s)
  end.

(** *** Clearing.  An optional argument is given as [option string]; the
    test [if (username)] also sends the empty string to the [else] branch. *)

Definition clearUserProfileCache (username : option string) (s : Cache) : Cache :=
  match username with
  | Some u =>
      if truthy u
      then set_userProfileCache s (delete (toLowerCase u) (userProfileCache s))
      else set_userProfileCache s ∅
  | None => set_userProfileCache s ∅
  end.

Definition clearMonthlyGamesCache (username : option string) (s : Cache) : Cache :=
  match username with
  | Some u =>
      if truthy u then
        let keysToDelete :=
          filter (fun key => startsWith key (toLowerCase u) = true)
                 (fst <$> map_to_list (monthlyGamesCache s)) in
        set_monthlyGamesCache s (foldr delete (monthlyGamesCache s) keysToDelete)
      else set_monthlyGamesCache s ∅
  | None => set_monthlyGamesCache s ∅
  end.

Definition clearGameCache (username : option string) (s : Cache) : Cache :=
  match username with
  | Some u =>
      if truthy u then
        set_games s
          (filter (fun kv => game_username (snd kv) <> toLowerCase u) (games s))
      else set_games s ∅
  | None => set_games s ∅
  end.

Definition clearAnalysisCache (username : option string) (s : Cache) : Cache :=
  match username with
  | Some u =>
      if truthy u then
        set_analysis s
          (filter (fun kv => analysis_username (snd kv) <> toLowerCase u)
                  (analysis s))
      else set_analysis s ∅
  | None => set_analysis s ∅
  end.

Definition clearAllCache (username : option string) (s : Cache) : Cache :=
  clearAnalysisCache username
    (clearGameCache username
       (clearMonthlyGamesCache username
          (clearUserProfileCache username s))).

(** ** [ChessComService.getMonthlyGames] *)

Record World := mkWorld {
  cache : Cache;
  fetchLog : list (string * Z * Z)
}.

(** [tRead] is the clock when the cache is consulted, [tStore] the clock when
    the response is written back. *)
Definition getMonthlyGames (username : string) (year month : Z)
  (tRead tStore : Z) (w : World) : option (list ChessComGame) * World :=
  match getCachedMonthlyGames username year month tRead (cache w) with
  | (Some cached, c) => (Some cached, mkWorld c (fetchLog w))
  | (None, c) =>
      let log := (fetchLog w ++ [(username, year, month)])%list in
      match fetchMonth (length (fetchLog w)) username year month with
      | None => (None, mkWorld c log)
      | Some gs =>
          let c1 := cacheMonthlyGames username year month gs tStore c in
          let c2 := cacheGames gs username tStore c1 in
          (Some gs, mkWorld c2 log)
      end
  end.

(** ** [PgnParser] *)

Definition parseResult (result : string) : string :=
  if decide (result = "win") then "win"
  else if decide (result = "checkmated" \/ result = "timeout"
                  \/ result = "resigned" \/ result = "abandoned") then result
  else if decide (result = "agreed" \/ result = "stalemate"
                  \/ result = "repetition" \/ result = "insufficient") then "draw"
  else "lose".

Definition historyToMoves (history : list HistoryMove) : list Move :=
  imap (fun index move =>
          mkMove (history_san move) (history_after move)
                 (Z.of_nat index / 2 + 1)
                 (bool_decide (Z.of_nat index mod 2 = 0))
                 None None None)
       history.

Definition parseChessComGame (chessComGame : ChessComGame) : option Game :=
  match loadPgn (pgn chessComGame) with
  | None => None
  | Some _ =>
      Some (mkGame (uuid chessComGame) (url chessComGame) (pgn chessComGame)
              (time_control chessComGame) (time_class chessComGame)
              (end_time chessComGame * 1000) (rated chessComGame)
              (mkPlayer (white_username chessComGame)
                 (white_rating chessComGame)
                 (parseResult (white_result chessComGame)))
              (mkPlayer (black_username chessComGame)
                 (black_rating chessComGame)
                 (parseResult (black_result chessComGame)))
              (rules chessComGame))
  end.

Definition extractMovesFromPgn (pgnText : string) : option (list Move) :=
  match loadPgn pgnText with
  | None => None
  | Some history => Some (historyToMoves history)
  end.

(** ** The cached-analysis loop of [POST /api/analyze] *)

Record LoopState := mkLoopState {
  store : Cache;
  analyses : list Analysis;
  cachedCount : nat;
  analyzedCount : nat;
  trace : list Event
}.

(** The body of the [for] loop with its [try]/[catch]: a throw of
    [parseChessComGame] or of [analyzeGame] leaves [analyses] as it was.
    A stored analysis is a JSON object, so [if (cachedAnalysis)] holds
    exactly when the map has an entry. *)
Definition analyzeStep (username : string)
  (cachedAnalyses : gmap string Analysis) (now : Z) (rawGame : ChessComGame)
  (st : LoopState) : LoopState :=
  match parseChessComGame rawGame with
  | None =>
      mkLoopState (store st) (analyses st) (cachedCount st) (analyzedCount st)
        (trace st ++ [EvParse (uuid rawGame)])%list
  | Some game =>
      match cachedAnalyses !! uuid rawGame with
      | Some cachedAnalysis =>
          mkLoopState (store st) (analyses st ++ [cachedAnalysis])%list
            (S (cachedCount st)) (analyzedCount st)
            (trace st ++ [EvParse (uuid rawGame)])%list
      | None =>
          match aiAnalyzeGame game username with
          | None =>
              mkLoopState (store st) (analyses st) (cachedCount st)
                (analyzedCount st)
                (trace st ++ [EvParse (uuid rawGame);
                              EvAnalyze (uuid rawGame)])%list
          | Some a =>
              mkLoopState
                (cacheAnalysis (uuid rawGame) username a now (store st))
                (analyses st ++ [a])%list
                (cachedCount st) (S (analyzedCount st))
                (trace st ++ [EvParse (uuid rawGame);
                              EvAnalyze (uuid rawGame);
                              EvCacheAnalysis (uuid rawGame)])%list
          end
      end
  end.

(** [clock i] is [Date.now()] during iteration [i]. *)
Fixpoint analyzeLoop (username : string) (cachedAnalyses : gmap string Analysis)
  (clock : nat -> Z) (i : nat) (rawGames : list ChessComGame) (st : LoopState)
  : LoopState :=
  match rawGames with
  | [] => st
  | rawGame :: rest =>
      analyzeLoop username cachedAnalyses clock (S i) rest
        (analyzeStep username cachedAnalyses (clock i) rawGame st)
  end.

Definition analyzeBatch (username : string) (rawGames : list ChessComGame)
  (clock : nat -> Z) (s : Cache) : LoopState :=
  let gameUuids := uuid <$> rawGames in
  let cachedAnalyses := getCachedAnalyses username gameUuids s in
  analyzeLoop username cachedAnalyses clock 0 rawGames
    (mkLoopState s [] 0 0 []).

(** What one iteration appends to [analyses], if anything. *)
Definition gameOutcome (username : string)
  (cachedAnalyses : gmap string Analysis) (rawGame : ChessComGame)
  : option Analysis :=
  match parseChessComGame rawGame with
  | None => None
  | Some game =>
      match cachedAnalyses !! uuid rawGame with
      | Some cachedAnalysis => Some cachedAnalysis
      | None => aiAnalyzeGame game username
      end
  end.

Definition analyzeCalls (tr : list Event) : list string :=
  omap (fun e => match e with EvAnalyze g => Some g | _ => None end) tr.

(** [a] is the analysis the batch owes for [rawGame]: the stored one when
    there is one, the freshly computed one otherwise. *)
Definition resultFor (username : string) (s : Cache) (rawGame : ChessComGame)
  (a : Analysis) : Prop :=
  exists game, parseChessComGame rawGame = Some game /\
    match getCachedAnalysis (uuid rawGame) username s with
    | Some cachedAnalysis => a = cachedAnalysis
    | None => aiAnalyzeGame game username = Some a
    end.

(** ** [GameAnalyzer.analyzeGame] *)

Definition getPlayerColor (game : Game) (playerUsername : string) : Color :=
  if decide (username (white game) = playerUsername)
  then colorWhite else colorBlack.

Definition isPlayerMove (move : Move) (color : Color) : bool :=
  (bool_decide (color = colorWhite) && isWhiteMove move)
  || (bool_decide (color = colorBlack) && negb (isWhiteMove move)).

Definition calculateMoveAccuracy (c : option Classification) : Z :=
  match c with
  | Some excellent => 100
  | Some good => 90
  | Some inaccuracy => 70
  | Some mistake => 50
  | Some blunder => 20
  | None => 80
  end.

Record MoveLoop := mkMoveLoop {
  board : Board;
  analyzedMoves : list Move;
  totalAccuracy : Z;
  moveCount : Z
}.

(** The body of [moves.forEach]: when [chess.move] throws the board is
    unchanged, when [evaluateMove] throws the move has been played. *)
Definition analyzeMove (color : Color) (st : MoveLoop) (move : Move) : MoveLoop :=
  let beforeFen := chess_fen (board st) in
  match chess_move (board st) (san move) with
  | None =>
      mkMoveLoop (board st) (analyzedMoves st ++ [move])%list
        (totalAccuracy st) (moveCount st)
  | Some after =>
      if isPlayerMove move color then
        match evaluateMove beforeFen (san move) (chess_fen after) with
        | None =>
            mkMoveLoop after (analyzedMoves st ++ [move])%list
              (totalAccuracy st) (moveCount st)
        | Some ev =>
            let analyzedMove :=
              mkMove (san move) (fen move) (moveNumber move) (isWhiteMove move)
                (Some (eval_evaluation ev)) (eval_bestMove ev)
                (Some (eval_classification ev)) in
            let accuracy :=
              calculateMoveAccuracy (Some (eval_classification ev)) in
            mkMoveLoop after (analyzedMoves st ++ [analyzedMove])%list
              (totalAccuracy st + accuracy) (moveCount st + 1)
        end
      else
        mkMoveLoop after (analyzedMoves st ++ [move])%list
          (totalAccuracy st) (moveCount st)
  end.

(** [totalAccuracy] is a sum of integers, so it is exact in a double; the
    quotient is taken in the rationals. *)
Definition analyzeGame (game : Game) (playerUsername : string)
  : option GameAnalysis :=
  match extractMovesFromPgn (gamePgn game) with
  | None => None
  | Some ms =>
      let color := getPlayerColor game playerUsername in
      let st := foldl (analyzeMove color) (mkMoveLoop chess_reset [] 0 0) ms in
      let accuracy :=
        if decide (moveCount st > 0)
        then (inject_Z (totalAccuracy st) / inject_Z (moveCount st))%Q
        else 0%Q in
      Some (mkGameAnalysis (id game) (analyzedMoves st) color accuracy)
  end.

(** The accuracy scores of the moves that carry a classification. *)
Definition moveScores (ms : list Move) : list Z :=
  omap (fun m => match classification m with
                 | Some c => Some (calculateMoveAccuracy (Some c))
                 | None => None
                 end) ms.

Definition sumZ (l : list Z) : Z := foldr Z.add 0 l.

(** The invariant of the [forEach] loop of [analyzeGame]. *)
Definition accuracyInv (color : Color) (st : MoveLoop) : Prop :=
  totalAccuracy st = sumZ (moveScores (analyzedMoves st))
  /\ moveCount st = Z.of_nat (length (moveScores (analyzedMoves st)))
  /\ Forall (fun m => is_Some (classification m) ->
                      isPlayerMove m color = true) (analyzedMoves st).

(** ** [ChessComService.getAllPlayerGames] and [getPlayerProfile] *)

(** [getPlayerArchives]: the archive URLs, or [None] when the response is
    not [ok]. *)
Variable fetchArchives : string -> option (list string).

(** The year and the month that [split('/')] and [parseInt] read off the
    last two segments of an archive URL. *)
Variable archiveYearMonth : string -> Z * Z.

(** The [n]-th request sent to the profile endpoint. *)
Variable fetchProfile : nat -> string -> option Profile.

(** An optional numeric [limit] is truthy when it is given and not 0. *)
Definition limitReached (limit : option Z) (n : nat) : bool :=
  match limit with
  | Some l => bool_decide (l <> 0) && bool_decide (Z.of_nat n >= l)
  | None => false
  end.

(** The [for] loop over the archives.  [clock i] gives the two clock
    readings of the call to [getMonthlyGames] in iteration [i]; a month that
    throws is logged and skipped. *)
Fixpoint allPlayerGamesLoop (username : string) (limit : option Z)
  (clock : nat -> Z * Z) (i : nat) (archives : list string)
  (allGames : list ChessComGame) (w : World) : list ChessComGame * World :=
  match archives with
  | [] => (allGames, w)
  | archive :: rest =>
      let year := fst (archiveYearMonth archive) in
      let month := snd (archiveYearMonth archive) in
      match getMonthlyGames username year month
              (fst (clock i)) (snd (clock i)) w with
      | (Some gs, w1) =>
          let allGames1 := (allGames ++ gs)%list in
          if limitReached limit (length allGames1)
          then (slice0 allGames1 (default 0 limit), w1)
          else allPlayerGamesLoop username limit clock (S i) rest allGames1 w1
      | (None, w1) =>
          allPlayerGamesLoop username limit clock (S i) rest allGames w1
      end
  end.

Definition getAllPlayerGames (username : string) (limit : option Z)
  (clock : nat -> Z * Z) (w : World) : option (list ChessComGame * World) :=
  match fetchArchives username with
  | None => None
  | Some archives =>
      Some (allPlayerGamesLoop username limit clock 0 archives [] w)
  end.

Record ProfileWorld := mkProfileWorld {
  profileCache : Cache;
  profileLog : list string
}.

Definition getPlayerProfile (username : string) (tRead tStore : Z)
  (w : ProfileWorld) : option Profile * ProfileWorld :=
  match getCachedUserProfile username tRead (profileCache w) with
  | (Some cached, c) => (Some cached, mkProfileWorld c (profileLog w))
  | (None, c) =>
      let log := (profileLog w ++ [username])%list in
      match fetchProfile (length (profileLog w)) username with
      | None => (None, mkProfileWorld c log)
      | Some profile =>
          (Some profile,
           mkProfileWorld (cacheUserProfile username profile tStore c) log)
      end
  end.

(** ** [GameAnalyzer.identifyMistakePatterns] and [generateRecommendations] *)

Definition patternExamples (label : string) (ms : list Move)
  : list PatternExample :=
  (fun move =>
     mkPatternExample EmptyString (moveNumber move) (fen move)
       (label +:+ " on move " +:+ pretty (moveNumber move) +:+ ": "
        +:+ san move))
    <$> take 3 ms.

Definition identifyMistakePatterns (ms : list Move) (color : Color)
  : list MistakePattern :=
  let playerMoves := filter (fun move => isPlayerMove move color = true) ms in
  let blunders :=
    filter (fun move => classification move = Some blunder) playerMoves in
  let mistakes :=
    filter (fun move => classification move = Some mistake) playerMoves in
  ((if decide (0 < length blunders)%nat then
      [mkMistakePattern tactical "Frequent blunders losing material"
         (length blunders)
         (if decide (2 < length blunders)%nat then major else moderate)
         (patternExamples "Blunder" blunders)]
    else [])
   ++
   (if decide (0 < length mistakes)%nat then
      [mkMistakePattern positional "Positional mistakes"
         (length mistakes)
         (if decide (3 < length mistakes)%nat then moderate else minor)
         (patternExamples "Mistake" mistakes)]
    else []))%list.

(** [move.classification && ['mistake', 'blunder'].includes(...)] *)
Definition isMistakeOrBlunder (move : Move) : Prop :=
  classification move = Some mistake \/ classification move = Some blunder.

Definition generateRecommendations (ms : list Move)
  (mistakes : list MistakePattern) : list string :=
  let blunders :=
    length (filter (fun move => classification move = Some blunder) ms) in
  let mistakes_count :=
    length (filter (fun move => classification move = Some mistake) ms) in
  let inaccuracies :=
    length (filter (fun move => classification move = Some inaccuracy) ms) in
  let openingMistakes := filter isMistakeOrBlunder (take 15 ms) in
  let endgameMistakes := filter isMistakeOrBlunder (sliceLast ms 15) in
  let recommendations :=
    ((if decide (2 < blunders)%nat then
        ["Focus on tactical training - solve 10-15 tactical puzzles daily";
         "Take more time on critical moves to avoid blunders"]
      else [])
     ++ (if decide (3 < mistakes_count)%nat then
           ["Study positional chess principles and pawn structures";
            "Practice evaluating positions before making moves"]
         else [])
     ++ (if decide (5 < inaccuracies)%nat then
           ["Work on calculation skills and candidate move selection"]
         else [])
     ++ (if decide (1 < length openingMistakes)%nat then
           ["Study opening principles and common opening patterns"]
         else [])
     ++ (if decide (1 < length endgameMistakes)%nat then
           ["Practice basic endgames and endgame principles"]
         else []))%list in
  match recommendations with
  | [] => ["Great game! Continue practicing to maintain this level"]
  | _ => recommendations
  end.

(** * Properties *)

(** ** The in-memory tier *)

Lemma toLowerCase_idemp (s : string) : toLowerCase (toLowerCase s) = toLowerCase s.
Proof.
  induction s as [|c r IH]; [done|]. cbn [toLowerCase]. f_equal; [|done].
  clear. destruct c as [[] [] [] [] [] [] [] []]; reflexivity.
Qed.

Lemma monthlyKey_lower (u1 u2 : string) (year month : Z) :
  toLowerCase u1 = toLowerCase u2 ->
  monthlyKey u1 year month = monthlyKey u2 year month.
Proof. unfold monthlyKey. by intros ->. Qed.

(** C6 (as amended): the profile read is absent exactly when there is no
    entry under the lowercased username or the clock is strictly past the
    entry's expiry, that is [now - storedAt > USER_PROFILE_TTL] for an entry
    written by [cacheUserProfile]; an expired entry is deleted; otherwise the
    stored profile is returned and the cache is unchanged. *)
Theorem C6_profile_read_strict (u : string) (now : Z) (s : Cache) :
  let r := getCachedUserProfile u now s in
  let entry := userProfileCache s !! toLowerCase u in
  (fst r = None <->
     entry = None \/ exists e, entry = Some e /\ now > expiresAt e)
  /\ (forall e, entry = Some e -> now > expiresAt e ->
        snd r = set_userProfileCache s
                  (delete (toLowerCase u) (userProfileCache s)))
  /\ (forall e, entry = Some e -> now <= expiresAt e ->
        r = (Some (data e), s))
  /\ (entry = None -> snd r = s)
  /\ (forall (p : Profile) (t0 : Z),
        let s0 := cacheUserProfile u p t0 s in
        getCachedUserProfile u now s0 =
          if decide (now - t0 > USER_PROFILE_TTL)
          then (None, set_userProfileCache s0
                        (delete (toLowerCase u) (userProfileCache s0)))
          else (Some p, s0)).
Proof.
  cbv zeta. unfold getCachedUserProfile.
  repeat split.
  - destruct (userProfileCache s !! toLowerCase u) as [e|] eqn:E; [|by left].
    case_decide; simpl; [|done]. intros _. right. by exists e.
  - intros [E|(e & E & Hgt)]; rewrite E; [done|].
    by rewrite decide_True.
  - intros e -> Hgt. by rewrite decide_True.
  - intros e -> Hle. rewrite decide_False; [done|lia].
  - by intros ->.
  - intros p t0. unfold cacheUserProfile at 1. simpl.
    rewrite lookup_insert_eq. simpl.
    destruct (decide (now - t0 > USER_PROFILE_TTL)).
    + rewrite decide_True; [done|lia].
    + rewrite decide_False; [done|lia].
Qed.

(** C5: the TTL class of a monthly batch is decided when it is read.  For
    an age strictly between five minutes and twenty-four hours, a batch of
    the current calendar month is removed and reported absent, and a batch
    of any other month is served unchanged. *)
Theorem C5_monthly_ttl_class (u : string) (year month : Z)
  (gs : list ChessComGame) (t0 now : Z) (s : Cache) :
  CURRENT_MONTH_TTL < now - t0 < MONTHLY_GAMES_TTL ->
  let s0 := cacheMonthlyGames u year month gs t0 s in
  let r := getCachedMonthlyGames u year month now s0 in
  (year = getFullYear now /\ month = getMonth now + 1 ->
     fst r = None
     /\ monthlyGamesCache (snd r) !! monthlyKey u year month = None
     /\ snd r = set_monthlyGamesCache s0
                  (delete (monthlyKey u year month) (monthlyGamesCache s0)))
  /\ (~ (year = getFullYear now /\ month = getMonth now + 1) ->
        r = (Some gs, s0)).
Proof.
  intros [Hlo Hhi]. cbv zeta.
  unfold getCachedMonthlyGames, cacheMonthlyGames. simpl.
  rewrite lookup_insert_eq. simpl. split; intros Hcur.
  - rewrite decide_True by done.
    rewrite bool_decide_eq_true_2 by lia. simpl.
    split; [done|]. split; [|done]. by rewrite lookup_delete_eq.
  - rewrite decide_False by done.
    rewrite bool_decide_eq_false_2; [done|]. unfold MONTHLY_GAMES_TTL in *. lia.
Qed.

(** ** The durable tier *)

(** Parsing the text that [JSON.stringify] produced gives the value back. *)
Hypothesis analysis_roundtrip :
  forall a : Analysis, JSON_parse (JSON_stringify a) = Some a.

Lemma getCachedAnalysis_cacheAnalysis_same (g u u' : string) (a : Analysis)
  (now : Z) (s : Cache) :
  toLowerCase u' = toLowerCase u ->
  getCachedAnalysis g u' (cacheAnalysis g u a now s) = Some a.
Proof using analysis_roundtrip.
  intros Hl. unfold getCachedAnalysis, cacheAnalysis. simpl.
  rewrite lookup_insert_eq. simpl. rewrite decide_True by done.
  apply analysis_roundtrip.
Qed.

Lemma getCachedAnalysis_cacheAnalysis_other_user (g u u' : string)
  (a : Analysis) (now : Z) (s : Cache) :
  toLowerCase u' <> toLowerCase u ->
  getCachedAnalysis g u' (cacheAnalysis g u a now s) = None.
Proof.
  intros Hl. unfold getCachedAnalysis, cacheAnalysis. simpl.
  rewrite lookup_insert_eq. simpl. by rewrite decide_False.
Qed.

Lemma getCachedAnalysis_cacheAnalysis_ne (g g' u u' : string) (a : Analysis)
  (now : Z) (s : Cache) :
  g <> g' ->
  getCachedAnalysis g' u' (cacheAnalysis g u a now s) = getCachedAnalysis g' u' s.
Proof.
  intros Hne. unfold getCachedAnalysis, cacheAnalysis. simpl.
  by rewrite lookup_insert_ne.
Qed.

Lemma getCachedAnalyses_lookup (u : string) (gs : list string) (s : Cache)
  (g : string) :
  getCachedAnalyses u gs s !! g =
    if decide (g ∈ gs) then getCachedAnalysis g u s else None.
Proof.
  unfold getCachedAnalyses, getCachedAnalysis. destruct gs as [|g0 gs'].
  - rewrite lookup_empty. rewrite decide_False; [done|]. apply not_elem_of_nil.
  - rewrite map_lookup_imap.
    destruct (analysis s !! g) as [row|]; simpl; [|by case_decide].
    destruct (decide (g ∈ g0 :: gs')) as [Hin|Hin].
    + destruct (decide (analysis_username row = toLowerCase u)) as [Hu|Hu].
      * by rewrite decide_True.
      * rewrite decide_False; [done|]. by intros [? _].
    + rewrite decide_False; [done|]. by intros [_ ?].
Qed.

(** C1 (as amended): the analysis table is keyed by the game uuid alone.
    A second [cacheAnalysis] for the same game replaces the stored row,
    whatever username the first one carried: the table is what the second
    write alone would have produced, the second user reads the new record,
    a user that differs after lowercasing reads nothing, and rows of other
    games are untouched. *)
Theorem C1_analysis_keyed_by_uuid (g u1 u2 : string) (a1 a2 : Analysis)
  (t1 t2 : Z) (s : Cache) :
  let s2 := cacheAnalysis g u2 a2 t2 (cacheAnalysis g u1 a1 t1 s) in
  s2 = cacheAnalysis g u2 a2 t2 s
  /\ getCachedAnalysis g u2 s2 = Some a2
  /\ (toLowerCase u1 <> toLowerCase u2 -> getCachedAnalysis g u1 s2 = None)
  /\ (toLowerCase u1 = toLowerCase u2 -> getCachedAnalysis g u1 s2 = Some a2)
  /\ (forall g', g' <> g -> analysis s2 !! g' = analysis s !! g').
Proof using analysis_roundtrip.
  cbv zeta. repeat split.
  - unfold cacheAnalysis, set_analysis. simpl. by rewrite insert_insert_eq.
  - by apply getCachedAnalysis_cacheAnalysis_same.
  - intros Hne. by apply getCachedAnalysis_cacheAnalysis_other_user.
  - intros Heq. by apply getCachedAnalysis_cacheAnalysis_same.
  - intros g' Hne. unfold cacheAnalysis. simpl.
    by rewrite !lookup_insert_ne.
Qed.

(** C7: usernames that agree after lowercasing address the same cache
    entries.  Writes and reads of the analysis table, the bulk lookup, and
    the profile, monthly and game keys do not distinguish them; an analysis
    stored under one casing is read back under the other, singly and in
    bulk; a different game uuid is a different entry. *)
Theorem C7_username_case_insensitive (u1 u2 : string) :
  toLowerCase u1 = toLowerCase u2 ->
  forall (g : string) (a : Analysis) (now : Z) (s : Cache),
  cacheAnalysis g u1 a now s = cacheAnalysis g u2 a now s
  /\ getCachedAnalysis g u1 s = getCachedAnalysis g u2 s
  /\ (forall gs, getCachedAnalyses u1 gs s = getCachedAnalyses u2 gs s)
  /\ getCachedAnalysis g u2 (cacheAnalysis g u1 a now s) = Some a
  /\ (forall gs, g ∈ gs ->
        getCachedAnalyses u2 gs (cacheAnalysis g u1 a now s) !! g = Some a)
  /\ (forall g' u, g' <> g ->
        getCachedAnalysis g' u (cacheAnalysis g u1 a now s)
        = getCachedAnalysis g' u s)
  /\ (forall year month, monthlyKey u1 year month = monthlyKey u2 year month)
  /\ (forall p, cacheUserProfile u1 p now s = cacheUserProfile u2 p now s)
  /\ getCachedUserProfile u1 now s = getCachedUserProfile u2 now s
  /\ (forall game, cacheGame game u1 now s = cacheGame game u2 now s).
Proof using analysis_roundtrip.
  intros Hl g a now s. repeat split.
  - unfold cacheAnalysis. by rewrite Hl.
  - unfold getCachedAnalysis. by rewrite Hl.
  - intros gs. unfold getCachedAnalyses. by rewrite Hl.
  - by apply getCachedAnalysis_cacheAnalysis_same.
  - intros gs Hin. rewrite getCachedAnalyses_lookup, decide_True by done.
    by apply getCachedAnalysis_cacheAnalysis_same.
  - intros g' u Hne. by apply getCachedAnalysis_cacheAnalysis_ne.
  - intros year month. by apply monthlyKey_lower.
  - intros p. unfold cacheUserProfile. by rewrite Hl.
  - unfold getCachedUserProfile. by rewrite Hl.
  - intros game. unfold cacheGame, gameRow. by rewrite Hl.
Qed.

(** ** Clearing *)

Lemma clearGameCache_lookup (u : string) (s : Cache) (k : string) :
  truthy u = true ->
  games (clearGameCache (Some u) s) !! k =
    match games s !! k with
    | Some row =>
        if decide (game_username row = toLowerCase u) then None else Some row
    | None => None
    end.
Proof.
  intros Ht. unfold clearGameCache. rewrite Ht. simpl.
  rewrite map_lookup_filter. destruct (games s !! k) as [row|]; [|done].
  simpl. case_guard; case_decide; simpl in *; done.
Qed.

Lemma clearAnalysisCache_lookup (u : string) (s : Cache) (k : string) :
  truthy u = true ->
  analysis (clearAnalysisCache (Some u) s) !! k =
    match analysis s !! k with
    | Some row =>
        if decide (analysis_username row = toLowerCase u) then None
        else Some row
    | None => None
    end.
Proof.
  intros Ht. unfold clearAnalysisCache. rewrite Ht. simpl.
  rewrite map_lookup_filter. destruct (analysis s !! k) as [row|]; [|done].
  simpl. case_guard; case_decide; simpl in *; done.
Qed.

(** The monthly clear removes every key that starts with the lowercased
    argument, and no other key. *)
Lemma clearMonthlyGamesCache_lookup (u : string) (s : Cache) (k : string) :
  truthy u = true ->
  monthlyGamesCache (clearMonthlyGamesCache (Some u) s) !! k =
    if startsWith k (toLowerCase u) then None else monthlyGamesCache s !! k.
Proof.
  intros Ht. unfold clearMonthlyGamesCache. rewrite Ht. simpl.
  destruct (startsWith k (toLowerCase u)) eqn:Hp.
  - destruct (monthlyGamesCache s !! k) as [e|] eqn:E.
    + apply lookup_foldr_delete. apply list_elem_of_filter. split; [done|].
      apply list_elem_of_fmap. exists (k, e). split; [done|].
      by apply elem_of_map_to_list.
    + apply eq_None_not_Some. intros [y Hy].
      apply lookup_foldr_delete_Some in Hy as [_ Hy]. congruence.
  - apply lookup_foldr_delete_not_elem_of.
    intros [Hin _]%list_elem_of_filter. congruence.
Qed.

Lemma clearAll_no_argument (s : Cache) :
  clearAllCache None s = emptyCache.
Proof. done. Qed.

(** ** Monthly fetch *)

Lemma cacheGames_monthly (gs : list ChessComGame) (u : string) (now : Z)
  (s : Cache) :
  monthlyGamesCache (cacheGames gs u now s) = monthlyGamesCache s
  /\ analysis (cacheGames gs u now s) = analysis s
  /\ userProfileCache (cacheGames gs u now s) = userProfileCache s.
Proof.
  assert (forall l acc,
    monthlyGamesCache (foldl (fun acc game => cacheGame game u now acc) acc l)
      = monthlyGamesCache acc
    /\ analysis (foldl (fun acc game => cacheGame game u now acc) acc l)
      = analysis acc
    /\ userProfileCache (foldl (fun acc game => cacheGame game u now acc) acc l)
      = userProfileCache acc) as Hfold.
  { induction l as [|g l IH]; intros acc; [done|]. simpl.
    destruct (IH (cacheGame g u now acc)) as (-> & -> & ->). done. }
  unfold cacheGames. destruct gs; [done|]. apply Hfold.
Qed.

Lemma cacheGames_foldl (gs : list ChessComGame) (u : string) (now : Z)
  (s : Cache) :
  cacheGames gs u now s = foldl (fun acc game => cacheGame game u now acc) s gs.
Proof. by destruct gs. Qed.

(** After [cacheGames] every game of the batch has a row under its uuid,
    written from a game of the batch that carries this uuid. *)
Lemma cacheGames_rows (gs : list ChessComGame) (u : string) (now : Z)
  (s : Cache) (g : ChessComGame) :
  g ∈ gs ->
  exists g', g' ∈ gs /\ uuid g' = uuid g
    /\ games (cacheGames gs u now s) !! uuid g = Some (gameRow g' u now).
Proof.
  rewrite cacheGames_foldl. induction gs as [|x l IH] using rev_ind;
    [by intros ?%elem_of_nil|].
  intros Hin. rewrite foldl_app. simpl.
  destruct (decide (uuid x = uuid g)) as [Hx|Hx].
  - exists x. split; [apply elem_of_app; right; by left|]. split; [done|].
    unfold cacheGame. simpl. rewrite <- Hx. by rewrite lookup_insert_eq.
  - apply elem_of_app in Hin as [Hin|Hin%list_elem_of_singleton];
      [|by subst].
    destruct (IH Hin) as (g' & Hg' & Hu & Hrow).
    exists g'. split; [apply elem_of_app; by left|]. split; [done|].
    unfold cacheGame at 1. simpl. by rewrite lookup_insert_ne.
Qed.

Lemma cacheGames_rows_NoDup (gs : list ChessComGame) (u : string) (now : Z)
  (s : Cache) (g : ChessComGame) :
  NoDup (uuid <$> gs) -> g ∈ gs ->
  games (cacheGames gs u now s) !! uuid g = Some (gameRow g u now).
Proof.
  intros Hnd Hin. destruct (cacheGames_rows gs u now s g Hin)
    as (g' & Hg' & Hu & ->).
  apply list_elem_of_lookup in Hin as [i Hi].
  apply list_elem_of_lookup in Hg' as [j Hj].
  assert (i = j) as ->.
  { eapply NoDup_lookup; [done| |]; rewrite list_lookup_fmap.
    - by rewrite Hi.
    - rewrite Hj. simpl. by rewrite Hu. }
  congruence.
Qed.

Lemma getCachedMonthlyGames_hit_unchanged (u : string) (year month now : Z)
  (s : Cache) (cached : list ChessComGame) :
  fst (getCachedMonthlyGames u year month now s) = Some cached ->
  snd (getCachedMonthlyGames u year month now s) = s.
Proof.
  unfold getCachedMonthlyGames.
  destruct (monthlyGamesCache s !! monthlyKey u year month); [|done].
  by destruct (if decide _ then _ else _).
Qed.

Lemma getCachedMonthlyGames_fresh (u : string) (year month now t0 : Z)
  (s : Cache) (gs : list ChessComGame) :
  monthlyGamesCache s !! monthlyKey u year month
    = Some (mkCacheEntry gs t0 (t0 + MONTHLY_GAMES_TTL)) ->
  now - t0 <= CURRENT_MONTH_TTL ->
  getCachedMonthlyGames u year month now s = (Some gs, s).
Proof.
  intros E Hage. unfold getCachedMonthlyGames. rewrite E. simpl.
  unfold CURRENT_MONTH_TTL, MONTHLY_GAMES_TTL in *.
  case_decide; rewrite bool_decide_eq_false_2; done || lia.
Qed.

(** C4: [getMonthlyGames] serves an unexpired cached batch without a
    request and without touching the cache or the database.  Otherwise it
    sends exactly one request; on success the batch is stored in the monthly
    map and every game gets a row in table [games], and a second call made
    within five minutes returns the same batch with no further request. *)
Theorem C4_monthly_fetch_once (u : string) (year month tRead tStore : Z)
  (w : World) :
  let r := getMonthlyGames u year month tRead tStore w in
  (forall cached,
     fst (getCachedMonthlyGames u year month tRead (cache w)) = Some cached ->
     r = (Some cached, w))
  /\ (forall gs,
        fst (getCachedMonthlyGames u year month tRead (cache w)) = None ->
        fetchMonth (length (fetchLog w)) u year month = Some gs ->
        fst r = Some gs
        /\ fetchLog (snd r) = (fetchLog w ++ [(u, year, month)])%list
        /\ monthlyGamesCache (cache (snd r)) !! monthlyKey u year month
           = Some (mkCacheEntry gs tStore (tStore + MONTHLY_GAMES_TTL))
        /\ (forall g, g ∈ gs ->
              exists g', g' ∈ gs /\ uuid g' = uuid g
                /\ games (cache (snd r)) !! uuid g
                   = Some (gameRow g' u tStore))
        /\ (forall tRead2 tStore2,
              tRead2 - tStore <= CURRENT_MONTH_TTL ->
              getMonthlyGames u year month tRead2 tStore2 (snd r)
              = (Some gs, snd r)))
  /\ (fst (getCachedMonthlyGames u year month tRead (cache w)) = None ->
      fetchMonth (length (fetchLog w)) u year month = None ->
      fst r = None
      /\ fetchLog (snd r) = (fetchLog w ++ [(u, year, month)])%list
      /\ games (cache (snd r)) = games (cache w)).
Proof.
  cbv zeta. unfold getMonthlyGames. split; [|split].
  - intros cached Hhit.
    pose proof (getCachedMonthlyGames_hit_unchanged _ _ _ _ _ _ Hhit) as Hs.
    destruct (getCachedMonthlyGames u year month tRead (cache w)) as [o c].
    simpl in *. subst. by destruct w.
  - intros gs Hmiss Hfetch.
    destruct (getCachedMonthlyGames u year month tRead (cache w)) as [o c].
    simpl in Hmiss. subst o. rewrite Hfetch. simpl.
    assert (monthlyGamesCache
              (cacheGames gs u tStore
                 (cacheMonthlyGames u year month gs tStore c))
              !! monthlyKey u year month
            = Some (mkCacheEntry gs tStore (tStore + MONTHLY_GAMES_TTL)))
      as Hentry.
    { destruct (cacheGames_monthly gs u tStore
                  (cacheMonthlyGames u year month gs tStore c)) as (-> & _).
      unfold cacheMonthlyGames. simpl. by rewrite lookup_insert_eq. }
    repeat split; [done| |].
    + intros g Hg. by apply cacheGames_rows.
    + intros tRead2 tStore2 Hage. simpl.
      by rewrite (getCachedMonthlyGames_fresh _ _ _ _ tStore _ gs).
  - intros Hmiss Hfetch. rewrite Hfetch.
    unfold getCachedMonthlyGames in *.
    destruct (monthlyGamesCache (cache w) !! monthlyKey u year month);
      [|done].
    by destruct (if decide _ then _ else _).
Qed.

(** ** The analysis loop *)

Section Loop.

Variable user : string.
Variable cached : gmap string Analysis.
Variable clock : nat -> Z.

Lemma analyzeLoop_app (l1 l2 : list ChessComGame) (i : nat) (st : LoopState) :
  analyzeLoop user cached clock i (l1 ++ l2)%list st
  = analyzeLoop user cached clock (i + length l1) l2
      (analyzeLoop user cached clock i l1 st).
Proof.
  revert i st. induction l1 as [|g l1 IH]; intros i st; simpl.
  - by rewrite Nat.add_0_r.
  - rewrite IH. f_equal. lia.
Qed.

Lemma analyzeStep_analyses (now : Z) (g : ChessComGame) (st : LoopState) :
  analyses (analyzeStep user cached now g st)
  = (analyses st ++ option_list (gameOutcome user cached g))%list.
Proof.
  unfold analyzeStep, gameOutcome.
  destruct (parseChessComGame g) as [game|]; simpl; [|by rewrite app_nil_r].
  destruct (cached !! uuid g); simpl; [done|].
  destruct (aiAnalyzeGame game user); simpl; [done|by rewrite app_nil_r].
Qed.

Lemma analyzeLoop_analyses (l : list ChessComGame) (i : nat) (st : LoopState) :
  analyses (analyzeLoop user cached clock i l st)
  = (analyses st ++ omap (gameOutcome user cached) l)%list.
Proof.
  revert i st. induction l as [|g l IH]; intros i st; simpl.
  - by rewrite app_nil_r.
  - rewrite IH, analyzeStep_analyses.
    rewrite <- app_assoc. f_equal.
    by destruct (gameOutcome user cached g).
Qed.


Lemma analyzeLoop_analyzeCalls (l : list ChessComGame) (i : nat)
  (st : LoopState) :
  analyzeCalls (trace (analyzeLoop user cached clock i l st))
  = (analyzeCalls (trace st) ++
     (uuid <$> filter (fun g => is_Some (parseChessComGame g)
                                /\ ~ is_Some (cached !! uuid g)) l))%list.
Proof.
  revert i st. induction l as [|g l IH]; intros i st; simpl.
  - by rewrite app_nil_r.
  - rewrite IH. unfold analyzeStep, analyzeCalls.
    destruct (parseChessComGame g) as [game|] eqn:Hp; simpl.
    + destruct (cached !! uuid g) as [c|] eqn:Hc; simpl.
      * rewrite omap_app; simpl. rewrite app_nil_r.
        rewrite filter_cons_False; [done|]. rewrite Hc. intros [_ Hn]. by apply Hn.
      * rewrite filter_cons_True
          by (rewrite Hc; split; [done|by intros [??]]).
        destruct (aiAnalyzeGame game user); simpl;
          rewrite omap_app; simpl; by rewrite <- app_assoc.
    + rewrite omap_app; simpl. rewrite app_nil_r.
      rewrite filter_cons_False; [done|]. rewrite Hp. by intros [[??] _].
Qed.

Lemma analyzeLoop_store_other (l : list ChessComGame) (i : nat)
  (st : LoopState) (g : string) :
  g ∉ uuid <$> l ->
  analysis (store (analyzeLoop user cached clock i l st)) !! g
  = analysis (store st) !! g.
Proof.
  revert i st. induction l as [|x l IH]; intros i st Hnin; simpl; [done|].
  rewrite fmap_cons in Hnin. apply not_elem_of_cons in Hnin as [Hx Hl].
  rewrite IH by done. unfold analyzeStep.
  destruct (parseChessComGame x) as [game|]; simpl; [|done].
  destruct (cached !! uuid x); simpl; [done|].
  destruct (aiAnalyzeGame game user); simpl; [|done].
  by rewrite lookup_insert_ne.
Qed.

Lemma analyzeStep_computed (now : Z) (g : ChessComGame) (st : LoopState)
  (game : Game) (a : Analysis) :
  parseChessComGame g = Some game ->
  cached !! uuid g = None ->
  aiAnalyzeGame game user = Some a ->
  analyzeStep user cached now g st
  = mkLoopState (cacheAnalysis (uuid g) user a now (store st))
      (analyses st ++ [a])%list (cachedCount st) (S (analyzedCount st))
      (trace st ++ [EvParse (uuid g); EvAnalyze (uuid g);
                    EvCacheAnalysis (uuid g)])%list.
Proof. intros Hp Hc Ha. unfold analyzeStep. by rewrite Hp, Hc, Ha. Qed.

End Loop.

Lemma filter_iff_in {A} (P1 P2 : A -> Prop)
  `{!forall x, Decision (P1 x), !forall x, Decision (P2 x)} (l : list A) :
  (forall x, x ∈ l -> (P1 x <-> P2 x)) -> filter P1 l = filter P2 l.
Proof.
  induction l as [|x l IH]; intros Hiff; [done|].
  assert (filter P1 l = filter P2 l) as Hl
    by (apply IH; intros y Hy; apply Hiff; by right).
  destruct (decide (P1 x)) as [H1|H1].
  - rewrite !filter_cons_True; [by rewrite Hl| |done].
    apply Hiff; [by left|done].
  - rewrite !filter_cons_False; [done| |done].
    intros H2. apply H1, Hiff; [by left|done].
Qed.

Lemma omap_Forall2 {A B} (f : A -> option B) (R : A -> B -> Prop)
  (l : list A) :
  (forall x, x ∈ l -> exists y, f x = Some y /\ R x y) ->
  Forall2 R l (omap f l).
Proof.
  induction l as [|x l IH]; intros Hall; simpl; [constructor|].
  destruct (Hall x) as (y & Hy & HR); [by left|]. rewrite Hy.
  constructor; [done|]. apply IH. intros z Hz. apply Hall. by right.
Qed.

Lemma batch_cached_lookup (u : string) (rawGames : list ChessComGame)
  (s : Cache) (g : ChessComGame) :
  g ∈ rawGames ->
  getCachedAnalyses u (uuid <$> rawGames) s !! uuid g
  = getCachedAnalysis (uuid g) u s.
Proof.
  intros Hin. rewrite getCachedAnalyses_lookup, decide_True; [done|].
  apply list_elem_of_fmap. by exists g.
Qed.

Lemma gameOutcome_resultFor (u : string) (rawGames : list ChessComGame)
  (s : Cache) (g : ChessComGame) (a : Analysis) :
  g ∈ rawGames ->
  gameOutcome u (getCachedAnalyses u (uuid <$> rawGames) s) g = Some a <->
  resultFor u s g a.
Proof.
  intros Hin. unfold gameOutcome, resultFor.
  rewrite batch_cached_lookup by done. split.
  - destruct (parseChessComGame g) as [game|]; [|done].
    intros Ha. exists game. split; [done|].
    destruct (getCachedAnalysis (uuid g) u s); congruence.
  - intros (game & -> & Ha).
    destruct (getCachedAnalysis (uuid g) u s); congruence.
Qed.


(** C3: a computed analysis is written to table [analysis] in the same
    iteration that computed it, right after the call to [analyzeGame] and
    before the next game is touched.  Whatever the later iterations do, a
    throw included, a direct [getCachedAnalysis] on the store they leave
    returns that analysis, as long as they do not meet the same uuid again. *)
Theorem C3_write_through (u : string) (pre mid tail : list ChessComGame)
  (g : ChessComGame) (game : Game) (a : Analysis) (clock : nat -> Z)
  (s : Cache) :
  let rawGames := (pre ++ g :: mid ++ tail)%list in
  let cached := getCachedAnalyses u (uuid <$> rawGames) s in
  let run l := analyzeLoop u cached clock 0 l (mkLoopState s [] 0 0 []) in
  parseChessComGame g = Some game ->
  getCachedAnalysis (uuid g) u s = None ->
  aiAnalyzeGame game u = Some a ->
  uuid g ∉ uuid <$> mid ->
  analyzeBatch u rawGames clock s = run rawGames
  /\ store (run (pre ++ [g])%list)
     = cacheAnalysis (uuid g) u a (clock (length pre)) (store (run pre))
  /\ trace (run (pre ++ [g])%list)
     = (trace (run pre) ++ [EvParse (uuid g); EvAnalyze (uuid g);
                            EvCacheAnalysis (uuid g)])%list
  /\ getCachedAnalysis (uuid g) u (store (run (pre ++ g :: mid)%list)) = Some a.
Proof using analysis_roundtrip.
  cbv zeta. intros Hp Hmiss Ha Hfresh.
  assert (getCachedAnalyses u (uuid <$> (pre ++ g :: mid ++ tail)%list) s
            !! uuid g = None) as Hc.
  { rewrite batch_cached_lookup; [done|].
    apply elem_of_app. right. by left. }
  split; [done|].
  rewrite !analyzeLoop_app. simpl.
  rewrite (analyzeStep_computed _ _ _ _ _ game a) by done. simpl.
  split; [done|]. split; [done|].
  unfold getCachedAnalysis. rewrite analyzeLoop_store_other by done.
  simpl. rewrite lookup_insert_eq. simpl.
  rewrite decide_True by done. apply analysis_roundtrip.
Qed.

(** C8: when exactly one game of the batch throws, in [parseChessComGame]
    or in [analyzeGame], the loop still returns: the result holds one
    analysis for each of the other games, in input order, and none for the
    failed one. *)
Theorem C8_skip_failed_game (u : string) (pre post : list ChessComGame)
  (bad : ChessComGame) (clock : nat -> Z) (s : Cache) :
  let rawGames := (pre ++ bad :: post)%list in
  (parseChessComGame bad = None
   \/ exists game, parseChessComGame bad = Some game
        /\ getCachedAnalysis (uuid bad) u s = None
        /\ aiAnalyzeGame game u = None) ->
  (forall g, g ∈ (pre ++ post)%list ->
     exists game, parseChessComGame g = Some game
       /\ (is_Some (getCachedAnalysis (uuid g) u s)
           \/ is_Some (aiAnalyzeGame game u))) ->
  let st := analyzeBatch u rawGames clock s in
  length (analyses st) = (length rawGames - 1)%nat
  /\ Forall2 (resultFor u s) (pre ++ post)%list (analyses st).
Proof.
  cbv zeta. intros Hbad Hok.
  assert (Forall2 (resultFor u s) (pre ++ post)%list
            (analyses (analyzeBatch u (pre ++ bad :: post)%list clock s)))
    as HF.
  { unfold analyzeBatch. rewrite analyzeLoop_analyses. simpl.
    rewrite omap_app. simpl.
    set (cached := getCachedAnalyses u (uuid <$> (pre ++ bad :: post)%list) s).
    assert (bad ∈ (pre ++ bad :: post)%list) as Hbin
      by (apply elem_of_app; right; by left).
    assert (gameOutcome u cached bad = None) as ->.
    { unfold gameOutcome, cached. rewrite batch_cached_lookup by done.
      destruct Hbad as [->|(game & -> & -> & ->)]; done. }
    rewrite <- omap_app. apply omap_Forall2. intros g Hg.
    assert (g ∈ (pre ++ bad :: post)%list) as Hgin.
    { apply elem_of_app in Hg as [?|?]; apply elem_of_app;
        [by left|right; by right]. }
    destruct (Hok g Hg) as (game & Hp & Hsome).
    assert (is_Some (gameOutcome u cached g)) as [a Ha].
    { unfold gameOutcome, cached. rewrite Hp, batch_cached_lookup by done.
      destruct (getCachedAnalysis (uuid g) u s); [done|].
      by destruct Hsome as [[]|]. }
    exists a. split; [done|].
    by apply (gameOutcome_resultFor u (pre ++ bad :: post)%list). }
  split; [|done].
  apply Forall2_length in HF. rewrite <- HF.
  rewrite !length_app. simpl. lia.
Qed.

(** ** Accuracy of one game *)

Lemma sumZ_app (l1 l2 : list Z) : sumZ (l1 ++ l2)%list = sumZ l1 + sumZ l2.
Proof. unfold sumZ. induction l1 as [|x l1 IH]; simpl; lia. Qed.

Lemma moveScores_app (l1 l2 : list Move) :
  moveScores (l1 ++ l2)%list = (moveScores l1 ++ moveScores l2)%list.
Proof. apply omap_app. Qed.



Lemma analyzeMove_inv (color : Color) (st : MoveLoop) (move : Move) :
  classification move = None ->
  accuracyInv color st -> accuracyInv color (analyzeMove color st move).
Proof.
  intros Hnone (Ht & Hc & Hp).
  assert (moveScores [move] = []) as Hscore
    by (unfold moveScores; simpl; by rewrite Hnone).
  assert (accuracyInv color
            (mkMoveLoop (board st) (analyzedMoves st ++ [move])%list
               (totalAccuracy st) (moveCount st))) as Hskip.
  { unfold accuracyInv. simpl. rewrite moveScores_app, Hscore, app_nil_r.
    repeat split; [done..|]. apply Forall_app. split; [done|].
    constructor; [|done]. rewrite Hnone. by intros [??]. }
  unfold analyzeMove.
  destruct (chess_move (board st) (san move)) as [after|]; [|done].
  destruct (isPlayerMove move color) eqn:Hplayer;
    [|destruct Hskip as (? & ? & ?); by repeat split].
  destruct (evaluateMove _ _ _) as [ev|];
    [|destruct Hskip as (? & ? & ?); by repeat split].
  unfold accuracyInv. simpl. rewrite moveScores_app.
  replace (moveScores
             [mkMove (san move) (fen move) (moveNumber move) (isWhiteMove move)
                (Some (eval_evaluation ev)) (eval_bestMove ev)
                (Some (eval_classification ev))])
    with [calculateMoveAccuracy (Some (eval_classification ev))] by done.
  rewrite sumZ_app, length_app. unfold sumZ at 2. simpl. repeat split.
  - lia.
  - lia.
  - apply Forall_app. split; [done|]. constructor; [|done]. by intros _.
Qed.

Lemma analyzeMoves_inv (color : Color) (ms : list Move) (st : MoveLoop) :
  Forall (fun m => classification m = None) ms ->
  accuracyInv color st -> accuracyInv color (foldl (analyzeMove color) st ms).
Proof.
  intros Hall. revert st. induction Hall as [|m ms Hm _ IH]; intros st Hst;
    simpl; [done|].
  apply IH. by apply analyzeMove_inv.
Qed.

Lemma historyToMoves_unclassified (h : list HistoryMove) :
  Forall (fun m => classification m = None) (historyToMoves h).
Proof.
  unfold historyToMoves. apply Forall_forall. intros m Hm.
  apply list_elem_of_lookup in Hm as [i Hi].
  rewrite list_lookup_imap in Hi.
  destruct (h !! i); simpl in Hi; [|done]. by injection Hi as <-.
Qed.



(** * Further properties of the cache *)

(** A game whose JSON text parses back to it and that was written by
    [cacheGame] is read back by [getCachedGame] under its uuid; other uuids
    are unaffected; the table holds one row per uuid, so an earlier write
    for the same uuid, by any user and at any time, leaves no trace; only
    table [games] changes. *)
Theorem cacheGame_roundtrip (game : ChessComGame) (u : string) (now : Z)
  (s : Cache) :
  JSON_parse (JSON_stringify game) = Some game ->
  let s1 := cacheGame game u now s in
  getCachedGame (uuid game) s1 = Some game
  /\ (forall k, k <> uuid game -> getCachedGame k s1 = getCachedGame k s)
  /\ (forall game' u' t', uuid game' = uuid game ->
        cacheGame game u now (cacheGame game' u' t' s) = s1)
  /\ analysis s1 = analysis s
  /\ monthlyGamesCache s1 = monthlyGamesCache s
  /\ userProfileCache s1 = userProfileCache s.
Proof.
  intros Hrt. cbv zeta. unfold getCachedGame, cacheGame. simpl.
  split; [|split; [|split; [|done]]].
  - rewrite lookup_insert_eq. simpl. exact Hrt.
  - intros k Hk. by rewrite lookup_insert_ne.
  - intros game' u' t' Hu. unfold set_games. simpl.
    by rewrite Hu, insert_insert_eq.
Qed.

(** After [cacheGames] on a batch with distinct uuids every game of the
    batch whose JSON text parses back to it is read back, uuids outside the
    batch read as before, and an empty batch changes nothing. *)
Theorem cacheGames_roundtrip (gs : list ChessComGame) (u : string) (now : Z)
  (s : Cache) :
  NoDup (uuid <$> gs) ->
  (forall g, g ∈ gs -> JSON_parse (JSON_stringify g) = Some g ->
     getCachedGame (uuid g) (cacheGames gs u now s) = Some g)
  /\ (forall k, k ∉ uuid <$> gs ->
        getCachedGame k (cacheGames gs u now s) = getCachedGame k s)
  /\ cacheGames [] u now s = s.
Proof.
  intros Hnd. split; [|split; [|done]].
  - intros g Hg Hrt. unfold getCachedGame.
    rewrite (cacheGames_rows_NoDup gs u now s g Hnd Hg). simpl. exact Hrt.
  - intros k Hk. unfold getCachedGame. rewrite cacheGames_foldl.
    clear Hnd. revert s. induction gs as [|x l IH]; intros s; [done|].
    rewrite fmap_cons in Hk. apply not_elem_of_cons in Hk as [Hx Hl].
    simpl. rewrite IH by done. unfold cacheGame. simpl.
    by rewrite lookup_insert_ne.
Qed.

(** The bulk lookup returns exactly the point lookups of the requested
    uuids: an entry is present iff its uuid was asked for and
    [getCachedAnalysis] finds it for this user; it never carries a row stored
    under another username; an empty request gives an empty map. *)
Theorem getCachedAnalyses_exact (u : string) (gs : list string) (s : Cache) :
  (forall g a,
     getCachedAnalyses u gs s !! g = Some a <->
     g ∈ gs /\ getCachedAnalysis g u s = Some a)
  /\ (forall g a, getCachedAnalyses u gs s !! g = Some a ->
        exists row, analysis s !! g = Some row
          /\ analysis_username row = toLowerCase u)
  /\ getCachedAnalyses u [] s = ∅.
Proof.
  split; [|split; [|done]].
  - intros g a. rewrite getCachedAnalyses_lookup.
    destruct (decide (g ∈ gs)); [|split; [done|by intros [? _]]].
    split; [done|by intros [_ ?]].
  - intros g a. rewrite getCachedAnalyses_lookup.
    destruct (decide (g ∈ gs)); [|done]. unfold getCachedAnalysis.
    destruct (analysis s !! g) as [row|]; [|done].
    destruct (decide (analysis_username row = toLowerCase u)); [|done].
    intros _. by exists row.
Qed.


Lemma startsWith_append (a b : string) : startsWith (a +:+ b) a = true.
Proof.
  unfold startsWith. induction a as [|c a IH]; simpl; [by destruct b|].
  destruct (ascii_dec c c); [done|congruence].
Qed.

(** After [clearMonthlyGamesCache] for a non-empty username every monthly
    read for that user, whatever the year, the month, the clock and the
    letter case, is absent; keys that do not start with the lowercased
    username are untouched; the tables are untouched. *)
Theorem clearMonthlyGamesCache_own (u : string) (s : Cache) :
  truthy u = true ->
  let s1 := clearMonthlyGamesCache (Some u) s in
  (forall u' year month now,
     toLowerCase u' = toLowerCase u ->
     getCachedMonthlyGames u' year month now s1 = (None, s1))
  /\ (forall k, startsWith k (toLowerCase u) = false ->
        monthlyGamesCache s1 !! k = monthlyGamesCache s !! k)
  /\ games s1 = games s /\ analysis s1 = analysis s.
Proof.
  intros Ht. cbv zeta. split; [|split].
  - intros u' year month now Hl. unfold getCachedMonthlyGames.
    rewrite clearMonthlyGamesCache_lookup by done.
    unfold monthlyKey. rewrite Hl. by rewrite startsWith_append.
  - intros k Hk. rewrite clearMonthlyGamesCache_lookup by done. by rewrite Hk.
  - unfold clearMonthlyGamesCache. by rewrite Ht.
Qed.

(** [clearAllCache] with no argument, or with the empty string, empties the
    two maps and the two tables; with a non-empty username it leaves no
    profile, no monthly batch, no analysis and no game row of that user. *)
Theorem clearAllCache_forgets (s : Cache) :
  clearAllCache None s = emptyCache
  /\ clearAllCache (Some EmptyString) s = emptyCache
  /\ (forall u, truthy u = true ->
        let s1 := clearAllCache (Some u) s in
        (forall now, getCachedUserProfile u now s1 = (None, s1))
        /\ (forall year month now,
              getCachedMonthlyGames u year month now s1 = (None, s1))
        /\ (forall g, getCachedAnalysis g u s1 = None)
        /\ (forall k row, games s1 !! k = Some row ->
              game_username row <> toLowerCase u)).
Proof.
  split; [done|]. split; [done|]. intros u Ht. cbv zeta.
  unfold clearAllCache. repeat split.
  - intros now. unfold getCachedUserProfile, clearAnalysisCache,
      clearGameCache, clearMonthlyGamesCache, clearUserProfileCache.
    rewrite Ht. simpl. by rewrite lookup_delete_eq.
  - intros year month now. unfold getCachedMonthlyGames.
    replace (monthlyGamesCache
               (clearAnalysisCache (Some u)
                  (clearGameCache (Some u)
                     (clearMonthlyGamesCache (Some u)
                        (clearUserProfileCache (Some u) s)))))
      with (monthlyGamesCache
              (clearMonthlyGamesCache (Some u)
                 (clearUserProfileCache (Some u) s)))
      by (unfold clearAnalysisCache, clearGameCache; by rewrite Ht).
    rewrite clearMonthlyGamesCache_lookup by done.
    unfold monthlyKey. by rewrite startsWith_append.
  - intros g. unfold getCachedAnalysis.
    rewrite clearAnalysisCache_lookup by done.
    destruct (analysis _ !! g) as [row|]; [|done].
    destruct (decide (analysis_username row = toLowerCase u)); [done|].
    by rewrite decide_False.
  - intros k row.
    replace (games
               (clearAnalysisCache (Some u)
                  (clearGameCache (Some u)
                     (clearMonthlyGamesCache (Some u)
                        (clearUserProfileCache (Some u) s)))))
      with (games
              (clearGameCache (Some u)
                 (clearMonthlyGamesCache (Some u)
                    (clearUserProfileCache (Some u) s))))
      by (unfold clearAnalysisCache; by rewrite Ht).
    rewrite clearGameCache_lookup by done.
    destruct (games _ !! k) as [row'|]; [|done].
    destruct (decide (game_username row' = toLowerCase u)); [done|].
    by intros [= <-].
Qed.

(** A monthly batch stored at [t0] and read at [now], under any casing of
    the username: it is served while its age is at most the TTL of its class
    (five minutes for the calendar month of [now], a day otherwise) and
    deleted once the age is strictly larger; after the deletion the map is
    the one from before the write, without the key. *)
Theorem monthly_put_get (u u' : string) (year month : Z)
  (gs : list ChessComGame) (t0 now : Z) (s : Cache) :
  toLowerCase u' = toLowerCase u ->
  let s0 := cacheMonthlyGames u year month gs t0 s in
  let ttl := if decide (year = getFullYear now /\ month = getMonth now + 1)
             then CURRENT_MONTH_TTL else MONTHLY_GAMES_TTL in
  getCachedMonthlyGames u' year month now s0 =
    (if decide (now - t0 > ttl)
     then (None, set_monthlyGamesCache s
                   (delete (monthlyKey u year month) (monthlyGamesCache s)))
     else (Some gs, s0)).
Proof.
  intros Hl. cbv zeta. unfold getCachedMonthlyGames.
  rewrite (monthlyKey_lower u' u) by done.
  unfold cacheMonthlyGames at 1. simpl. rewrite lookup_insert_eq. simpl.
  destruct (decide (year = getFullYear now /\ month = getMonth now + 1)).
  - destruct (decide (now - t0 > CURRENT_MONTH_TTL)).
    + rewrite bool_decide_eq_true_2 by lia.
      unfold set_monthlyGamesCache. simpl. by rewrite delete_insert_eq.
    + by rewrite bool_decide_eq_false_2 by lia.
  - destruct (decide (now - t0 > MONTHLY_GAMES_TTL)).
    + rewrite bool_decide_eq_true_2 by lia.
      unfold set_monthlyGamesCache. simpl. by rewrite delete_insert_eq.
    + by rewrite bool_decide_eq_false_2 by lia.
Qed.

(** The two in-memory reads change nothing but the entry they look at: the
    tables, the other map and every other key are as before, a hit leaves
    the whole state unchanged, and after an absent answer the same key
    stays absent at any later or earlier clock until it is written again. *)
Theorem ephemeral_reads_frame (u : string) (year month now : Z) (s : Cache) :
  let rp := getCachedUserProfile u now s in
  let rm := getCachedMonthlyGames u year month now s in
  (games (snd rp) = games s /\ analysis (snd rp) = analysis s
   /\ monthlyGamesCache (snd rp) = monthlyGamesCache s)
  /\ (forall k, k <> toLowerCase u ->
        userProfileCache (snd rp) !! k = userProfileCache s !! k)
  /\ (forall p, fst rp = Some p -> snd rp = s)
  /\ (fst rp = None -> forall u' now', toLowerCase u' = toLowerCase u ->
        getCachedUserProfile u' now' (snd rp) = (None, snd rp))
  /\ (games (snd rm) = games s /\ analysis (snd rm) = analysis s
      /\ userProfileCache (snd rm) = userProfileCache s)
  /\ (forall k, k <> monthlyKey u year month ->
        monthlyGamesCache (snd rm) !! k = monthlyGamesCache s !! k)
  /\ (forall gs, fst rm = Some gs -> snd rm = s)
  /\ (fst rm = None -> forall u' now', toLowerCase u' = toLowerCase u ->
        getCachedMonthlyGames u' year month now' (snd rm) = (None, snd rm)).
Proof.
  cbv zeta. split; [|split; [|split; [|split; [|split; [|split; [|split]]]]]].
  - unfold getCachedUserProfile.
    destruct (userProfileCache s !! toLowerCase u); [|done].
    by case_decide.
  - intros k Hk. unfold getCachedUserProfile.
    destruct (userProfileCache s !! toLowerCase u); [|done].
    case_decide; [|done]. simpl. by rewrite lookup_delete_ne.
  - intros p. unfold getCachedUserProfile.
    destruct (userProfileCache s !! toLowerCase u); [|done].
    by case_decide.
  - intros Hnone u' now' Hl. unfold getCachedUserProfile in *. rewrite Hl.
    destruct (userProfileCache s !! toLowerCase u) as [e|] eqn:E.
    + destruct (decide (now > expiresAt e)); [|done]. simpl.
      by rewrite lookup_delete_eq.
    + simpl. by rewrite E.
  - unfold getCachedMonthlyGames.
    destruct (monthlyGamesCache s !! monthlyKey u year month); [|done].
    by destruct (if decide _ then _ else _).
  - intros k Hk. unfold getCachedMonthlyGames.
    destruct (monthlyGamesCache s !! monthlyKey u year month); [|done].
    destruct (if decide _ then _ else _); [|done].
    simpl. by rewrite lookup_delete_ne.
  - intros gs. unfold getCachedMonthlyGames.
    destruct (monthlyGamesCache s !! monthlyKey u year month); [|done].
    by destruct (if decide _ then _ else _).
  - intros Hnone u' now' Hl. unfold getCachedMonthlyGames in *.
    rewrite (monthlyKey_lower u' u) by done.
    destruct (monthlyGamesCache s !! monthlyKey u year month) as [e|] eqn:E.
    + destruct (if decide _ then _ else _); [|done]. simpl.
      by rewrite lookup_delete_eq.
    + simpl. by rewrite E.
Qed.

Lemma hasUnderscore_app (a b : string) :
  hasUnderscore (a +:+ b) = hasUnderscore a || hasUnderscore b.
Proof.
  induction a as [|c a IH]; simpl; [done|]. rewrite IH.
  by destruct (bool_decide (c = "_"%char)).
Qed.

Lemma pretty_N_go_no_underscore (x : N) (s : string) :
  hasUnderscore s = false -> hasUnderscore (pretty_N_go x s) = false.
Proof.
  revert s. induction (N.lt_wf_0 x) as [x _ IH]; intros s Hs.
  assert (x = 0 \/ 0 < x)%N as [->|Hpos] by lia.
  - by rewrite pretty_N_go_0.
  - rewrite pretty_N_go_step by done. apply IH.
    + by apply N.div_lt.
    + simpl. rewrite Hs. unfold pretty_N_char.
      by repeat case_match.
Qed.

Lemma pretty_Z_no_underscore (z : Z) : hasUnderscore (pretty z) = false.
Proof.
  assert (forall p : positive, hasUnderscore (pretty p) = false) as Hpos.
  { intros p. unfold pretty, pretty_positive, pretty, pretty_N.
    rewrite decide_False by done. by apply pretty_N_go_no_underscore. }
  destruct z as [|p|p]; [done|apply Hpos|].
  change (pretty (Z.neg p)) with ("-" +:+ pretty p).
  simpl. apply Hpos.
Qed.

Lemma split_last_underscore (a a' p p' : string) :
  hasUnderscore p = false -> hasUnderscore p' = false ->
  a +:+ "_" +:+ p = a' +:+ "_" +:+ p' -> a = a' /\ p = p'.
Proof.
  intros Hp Hp'. revert a'. induction a as [|c a IH]; intros [|c' a'] Heq.
  - change (String "_" p = String "_" p') in Heq. by injection Heq as ->.
  - change (String "_" p = String c' (a' +:+ "_" +:+ p')) in Heq.
    injection Heq as <- ->. rewrite hasUnderscore_app in Hp.
    change (hasUnderscore ("_" +:+ p')) with true in Hp.
    by destruct (hasUnderscore a').
  - change (String c (a +:+ "_" +:+ p) = String "_" p') in Heq.
    injection Heq as -> <-. rewrite hasUnderscore_app in Hp'.
    change (hasUnderscore ("_" +:+ p)) with true in Hp'.
    by destruct (hasUnderscore a).
  - change (String c (a +:+ "_" +:+ p) = String c' (a' +:+ "_" +:+ p'))
      in Heq.
    injection Heq as -> Heq. destruct (IH a' Heq) as [-> ->]. done.
Qed.

Lemma string_app_assoc (a b c : string) : (a +:+ b) +:+ c = a +:+ (b +:+ c).
Proof.
  induction a as [|x a IH]; [done|].
  change (String x ((a +:+ b) +:+ c) = String x (a +:+ b +:+ c)).
  by rewrite IH.
Qed.

(** Two monthly keys are equal only if the lowercased usernames, the years
    and the months are: batches of different users or months never share an
    entry, also for usernames that contain the separator. *)
Theorem monthlyKey_inj (u1 u2 : string) (y1 y2 m1 m2 : Z) :
  monthlyKey u1 y1 m1 = monthlyKey u2 y2 m2 <->
  toLowerCase u1 = toLowerCase u2 /\ y1 = y2 /\ m1 = m2.
Proof.
  split; [|intros (Hu & -> & ->); by apply monthlyKey_lower].
  unfold monthlyKey. intros Heq.
  rewrite <- !(string_app_assoc (toLowerCase _) "_" (pretty _ +:+ _)) in Heq.
  rewrite <- !(string_app_assoc (toLowerCase _ +:+ "_") (pretty _)) in Heq.
  apply split_last_underscore in Heq as [Heq Hm];
    [|apply pretty_Z_no_underscore..].
  rewrite !string_app_assoc in Heq.
  apply split_last_underscore in Heq as [Hu Hy];
    [|apply pretty_Z_no_underscore..].
  split; [done|]. split; by apply (inj pretty).
Qed.

(** * Further properties of the analysis loop *)




Lemma filter_none {A} (l : list A) : filter (fun _ : A => False) l = [].
Proof.
  induction l as [|x l IH]; [done|].
  rewrite filter_cons_False; [done|by intros []].
Qed.

Lemma omap_ext_in {A B} (f1 f2 : A -> option B) (l : list A) :
  (forall x, x ∈ l -> f1 x = f2 x) -> omap f1 l = omap f2 l.
Proof.
  induction l as [|x l IH]; intros Hext; [done|].
  assert (omap f1 l = omap f2 l) as Hl
    by (apply IH; intros y Hy; apply Hext; by right).
  change (match f1 x with Some y => y :: omap f1 l | None => omap f1 l end
          = match f2 x with Some y => y :: omap f2 l | None => omap f2 l end).
  rewrite (Hext x) by (by left). by rewrite Hl.
Qed.

(** What a direct read finds after a batch over games with distinct uuids:
    for a game that parsed, the analysis the batch returned for it, if any;
    for a game that did not parse, what was stored before. *)
Lemma analyzeBatch_store_lookup (u : string) (rawGames : list ChessComGame)
  (clock : nat -> Z) (s : Cache) (g : ChessComGame) :
  NoDup (uuid <$> rawGames) -> g ∈ rawGames ->
  getCachedAnalysis (uuid g) u (store (analyzeBatch u rawGames clock s))
  = match parseChessComGame g with
    | Some _ =>
        gameOutcome u (getCachedAnalyses u (uuid <$> rawGames) s) g
    | None => getCachedAnalysis (uuid g) u s
    end.
Proof using analysis_roundtrip.
  intros Hnd Hin. unfold analyzeBatch.
  set (cached := getCachedAnalyses u (uuid <$> rawGames) s).
  assert (cached !! uuid g = getCachedAnalysis (uuid g) u s) as Hc
    by (by apply batch_cached_lookup).
  apply list_elem_of_split in Hin as (pre & post & Hsplit).
  rewrite Hsplit in Hnd |- *. rewrite fmap_app, fmap_cons in Hnd.
  apply NoDup_app in Hnd as (_ & Hpre & Hpost).
  apply NoDup_cons in Hpost as [Hpost _].
  assert (uuid g ∉ uuid <$> pre) as Hpre'.
  { intros Hg. apply (Hpre _ Hg). by left. }
  rewrite analyzeLoop_app. simpl.
  unfold getCachedAnalysis at 1.
  rewrite analyzeLoop_store_other by done.
  unfold gameOutcome, analyzeStep. rewrite Hc.
  destruct (parseChessComGame g) as [game|]; simpl.
  - destruct (getCachedAnalysis (uuid g) u s) as [c|] eqn:Hget; simpl.
    + rewrite analyzeLoop_store_other by done. simpl. exact Hget.
    + destruct (aiAnalyzeGame game u) as [a|]; simpl.
      * rewrite lookup_insert_eq. simpl. rewrite decide_True by done.
        apply analysis_roundtrip.
      * rewrite analyzeLoop_store_other by done. simpl. exact Hget.
  - rewrite analyzeLoop_store_other by done. simpl. done.
Qed.

(** Running the batch again on the store the first run left, for games with
    distinct uuids and under any casing of the username: every analysis the
    first run returned is found by a direct read; the second run calls
    [analyzeGame] only for the games whose evaluation threw the first time;
    and when nothing threw the first time it calls [analyzeGame] for no game
    and returns the same analyses. *)
Theorem analyzeBatch_rerun (u u' : string) (rawGames : list ChessComGame)
  (clock clock' : nat -> Z) (s : Cache) :
  NoDup (uuid <$> rawGames) ->
  toLowerCase u' = toLowerCase u ->
  let st := analyzeBatch u rawGames clock s in
  let st' := analyzeBatch u' rawGames clock' (store st) in
  (forall g a, g ∈ rawGames -> resultFor u s g a ->
     getCachedAnalysis (uuid g) u' (store st) = Some a)
  /\ analyzeCalls (trace st')
     = uuid <$> filter (fun g => is_Some (parseChessComGame g)
                         /\ ~ is_Some (getCachedAnalysis (uuid g) u s)
                         /\ ~ is_Some (parseChessComGame g ≫=
                                         fun game => aiAnalyzeGame game u))
                  rawGames
  /\ ((forall g, g ∈ rawGames ->
         exists game, parseChessComGame g = Some game
           /\ (is_Some (getCachedAnalysis (uuid g) u s)
               \/ is_Some (aiAnalyzeGame game u))) ->
      analyzeCalls (trace st') = [] /\ analyses st' = analyses st).
Proof using analysis_roundtrip.
  intros Hnd Hl. cbv zeta.
  assert (forall g, getCachedAnalysis g u' = getCachedAnalysis g u) as Hu.
  { intros g. unfold getCachedAnalysis. by rewrite Hl. }
  assert (forall g, g ∈ rawGames ->
    forall game, parseChessComGame g = Some game ->
    getCachedAnalysis (uuid g) u (store (analyzeBatch u rawGames clock s))
    = match getCachedAnalysis (uuid g) u s with
      | Some c => Some c
      | None => aiAnalyzeGame game u
      end) as Hread.
  { intros g Hg game Hp. rewrite analyzeBatch_store_lookup by done.
    rewrite Hp. unfold gameOutcome. rewrite Hp.
    by rewrite batch_cached_lookup. }
  split; [|split].
  - intros g a Hg (game & Hp & Ha). rewrite Hu, (Hread g Hg game Hp).
    destruct (getCachedAnalysis (uuid g) u s); congruence.
  - unfold analyzeBatch at 1. rewrite analyzeLoop_analyzeCalls. simpl.
    f_equal. apply filter_iff_in. intros g Hg.
    rewrite batch_cached_lookup by done. rewrite Hu.
    destruct (parseChessComGame g) as [game|] eqn:Hp; simpl;
      [|split; by intros [[? ?] _]].
    rewrite (Hread g Hg game Hp).
    destruct (getCachedAnalysis (uuid g) u s) as [c|]; simpl.
    + split; [intros [_ Hn]; by destruct Hn|intros (_ & Hn & _); by destruct Hn].
    + split; [intros [? ?]; by repeat split|intros (? & _ & ?); by split].
  - intros Hall.
    assert (forall g, g ∈ rawGames ->
      gameOutcome u' (getCachedAnalyses u' (uuid <$> rawGames)
                        (store (analyzeBatch u rawGames clock s))) g
      = gameOutcome u (getCachedAnalyses u (uuid <$> rawGames) s) g
      /\ is_Some (getCachedAnalysis (uuid g) u'
                    (store (analyzeBatch u rawGames clock s)))) as Hsame.
    { intros g Hg. destruct (Hall g Hg) as (game & Hp & Hok).
      unfold gameOutcome. rewrite Hp, !batch_cached_lookup by done.
      rewrite Hu, (Hread g Hg game Hp).
      destruct (getCachedAnalysis (uuid g) u s) as [c|]; [by split|].
      destruct Hok as [[? ?]|[a Ha]]; [done|]. rewrite Ha. by split. }
    split.
    + unfold analyzeBatch at 1. rewrite analyzeLoop_analyzeCalls. simpl.
      rewrite (filter_iff_in _ (fun _ => False)); [|intros g Hg].
      * by rewrite filter_none.
      * split; [|done]. intros [_ Hn]. apply Hn.
        rewrite batch_cached_lookup by done. by apply Hsame.
    + unfold analyzeBatch at 1 3. rewrite !analyzeLoop_analyses. simpl.
      apply omap_ext_in. intros g Hg. by apply Hsame.
Qed.

(** * Further properties of the Chess.com service *)

Lemma getMonthlyGames_log (u : string) (year month tRead tStore : Z)
  (w : World) :
  (length (fetchLog (snd (getMonthlyGames u year month tRead tStore w)))
   <= S (length (fetchLog w)))%nat.
Proof.
  unfold getMonthlyGames.
  destruct (getCachedMonthlyGames u year month tRead (cache w)) as [[cached|] c];
    simpl; [lia|].
  destruct (fetchMonth (length (fetchLog w)) u year month); simpl;
    rewrite length_app; simpl; lia.
Qed.

Lemma slice0_length {A} (l : list A) (n : Z) :
  0 < n -> Z.of_nat (length (slice0 l n)) <= n.
Proof.
  intros Hn. unfold slice0. rewrite decide_True by lia.
  rewrite length_take. lia.
Qed.

Lemma allPlayerGamesLoop_spec (u : string) (limit : option Z)
  (clock : nat -> Z * Z) (archives : list string) :
  forall (i : nat) (allGames : list ChessComGame) (w : World),
  let r := allPlayerGamesLoop u limit clock i archives allGames w in
  (length (fetchLog (snd r)) <= length (fetchLog w) + length archives)%nat
  /\ (forall n, limit = Some n -> 0 < n ->
        Z.of_nat (length allGames) < n -> Z.of_nat (length (fst r)) <= n)
  /\ ((forall n, limitReached limit n = false) ->
      allGames `prefix_of` fst r).
Proof.
  induction archives as [|archive rest IH]; intros i allGames w; cbv zeta.
  - simpl. split; [lia|]. split; [lia|done].
  - simpl.
    pose proof (getMonthlyGames_log u (fst (archiveYearMonth archive))
                  (snd (archiveYearMonth archive))
                  (fst (clock i)) (snd (clock i)) w) as Hlog.
    destruct (getMonthlyGames u _ _ _ _ w) as [[gs|] w1]; simpl in Hlog.
    + destruct (limitReached limit (length (allGames ++ gs))) eqn:Hreach.
      * simpl. split; [lia|]. split.
        -- intros n -> Hn _. simpl. by apply slice0_length.
        -- intros Hnever. by rewrite Hnever in Hreach.
      * destruct (IH (S i) (allGames ++ gs)%list w1) as (I1 & I2 & I3).
        split; [lia|]. split.
        -- intros n Hl Hn _. apply (I2 n Hl Hn). subst limit.
           unfold limitReached in Hreach.
           rewrite bool_decide_eq_true_2 in Hreach by lia. simpl in Hreach.
           apply bool_decide_eq_false in Hreach. lia.
        -- intros Hnever. etrans; [|by apply I3]. by apply prefix_app_r.
    + destruct (IH (S i) allGames w1) as (I1 & I2 & I3).
      split; [lia|]. split; [|done]. intros n Hl Hn Hlen. by apply (I2 n).
Qed.

(** [getAllPlayerGames] throws exactly when the archive list cannot be
    fetched.  Otherwise it sends at most one monthly request per archive;
    with a positive [limit] it returns at most [limit] games; with no limit,
    or a limit of 0, it truncates nothing; and with a negative limit, when
    the first month answers, it returns that month without its last
    [-limit] games and asks for no other month. *)
Theorem getAllPlayerGames_limit (u : string) (limit : option Z)
  (clock : nat -> Z * Z) (w : World) :
  (getAllPlayerGames u limit clock w = None <-> fetchArchives u = None)
  /\ (forall archives, fetchArchives u = Some archives ->
        exists r, getAllPlayerGames u limit clock w = Some r
          /\ (length (fetchLog (snd r))
              <= length (fetchLog w) + length archives)%nat
          /\ (forall n, limit = Some n -> 0 < n ->
                Z.of_nat (length (fst r)) <= n)
          /\ (forall n archive rest gs w1,
                limit = Some n -> n < 0 -> archives = archive :: rest ->
                getMonthlyGames u (fst (archiveYearMonth archive))
                  (snd (archiveYearMonth archive))
                  (fst (clock 0%nat)) (snd (clock 0%nat)) w = (Some gs, w1) ->
                r = (take (Z.to_nat (Z.of_nat (length gs) + n)) gs, w1)))
  /\ (forall archives,
        (limit = None \/ limit = Some 0) ->
        forall i allGames w0,
        allGames `prefix_of`
          fst (allPlayerGamesLoop u limit clock i archives allGames w0)).
Proof.
  unfold getAllPlayerGames. split; [|split].
  - by destruct (fetchArchives u).
  - intros archives ->. eexists. split; [done|].
    destruct (allPlayerGamesLoop_spec u limit clock archives 0%nat [] w)
      as (H1 & H2 & _).
    split; [done|]. split.
    + intros n Hl Hn. apply (H2 n Hl Hn). simpl. lia.
    + intros n archive rest gs w1 -> Hn -> Hm. simpl. rewrite Hm. simpl.
      rewrite bool_decide_eq_true_2 by lia.
      rewrite bool_decide_eq_true_2 by lia. simpl.
      unfold slice0. by rewrite decide_False by lia.
  - intros archives Hl i allGames w0.
    apply allPlayerGamesLoop_spec.
    intros n. destruct Hl as [->| ->]; reflexivity.
Qed.

(** [getPlayerProfile] serves an unexpired cached profile without a request
    and without changing the state.  Otherwise it sends one request; a
    failed request stores nothing; a successful one stores the profile, and
    a second call at most one hour after the store, under any casing of the
    username, returns it with no further request. *)
Theorem getPlayerProfile_fetch_once (u : string) (tRead tStore : Z)
  (w : ProfileWorld) :
  let r := getPlayerProfile u tRead tStore w in
  (forall cached,
     fst (getCachedUserProfile u tRead (profileCache w)) = Some cached ->
     r = (Some cached, w))
  /\ (forall profile,
        fst (getCachedUserProfile u tRead (profileCache w)) = None ->
        fetchProfile (length (profileLog w)) u = Some profile ->
        fst r = Some profile
        /\ profileLog (snd r) = (profileLog w ++ [u])%list
        /\ (forall u' tRead2 tStore2,
              toLowerCase u' = toLowerCase u ->
              tRead2 - tStore <= USER_PROFILE_TTL ->
              getPlayerProfile u' tRead2 tStore2 (snd r)
              = (Some profile, snd r)))
  /\ (fst (getCachedUserProfile u tRead (profileCache w)) = None ->
      fetchProfile (length (profileLog w)) u = None ->
      fst r = None
      /\ profileLog (snd r) = (profileLog w ++ [u])%list
      /\ userProfileCache (profileCache (snd r)) !! toLowerCase u = None).
Proof.
  cbv zeta. unfold getPlayerProfile. split; [|split].
  - intros cached Hhit.
    assert (snd (getCachedUserProfile u tRead (profileCache w))
            = profileCache w) as Hsame.
    { unfold getCachedUserProfile in *.
      destruct (userProfileCache (profileCache w) !! toLowerCase u); [|done].
      by destruct (decide _). }
    destruct (getCachedUserProfile u tRead (profileCache w)) as [o c].
    simpl in *. subst. by destruct w.
  - intros profile Hmiss Hfetch.
    destruct (getCachedUserProfile u tRead (profileCache w)) as [o c].
    simpl in Hmiss. subst o. rewrite Hfetch. simpl.
    split; [done|]. split; [done|].
    intros u' tRead2 tStore2 Hl Hage.
    unfold getCachedUserProfile, cacheUserProfile. simpl.
    rewrite Hl, lookup_insert_eq. simpl.
    by rewrite decide_False by lia.
  - intros Hmiss Hfetch. rewrite Hfetch.
    unfold getCachedUserProfile in *.
    destruct (userProfileCache (profileCache w) !! toLowerCase u) as [e|] eqn:E.
    + destruct (decide (tRead > expiresAt e)); [|done]. simpl.
      split; [done|]. split; [done|]. by rewrite lookup_delete_eq.
    + simpl. split; [done|]. split; [done|]. exact E.
Qed.

(** * Further properties of the game analyzer *)

Lemma analyzeMove_keeps (color : Color) (st : MoveLoop) (move : Move) :
  exists m', analyzedMoves (analyzeMove color st move)
             = (analyzedMoves st ++ [m'])%list
    /\ sameMove move m'.
Proof.
  unfold analyzeMove.
  destruct (chess_move (board st) (san move)) as [after|];
    [|by exists move].
  destruct (isPlayerMove move color); [|by exists move].
  destruct (evaluateMove _ _ _) as [ev|]; [|by exists move].
  eexists. split; [done|]. by repeat split.
Qed.

Lemma analyzeMoves_keeps (color : Color) (ms : list Move) (st : MoveLoop) :
  exists l', analyzedMoves (foldl (analyzeMove color) st ms)
             = (analyzedMoves st ++ l')%list
    /\ Forall2 sameMove ms l'.
Proof.
  revert st. induction ms as [|m ms IH]; intros st; simpl.
  - exists []. by rewrite app_nil_r.
  - destruct (analyzeMove_keeps color st m) as (m' & Hm & Hsame).
    destruct (IH (analyzeMove color st m)) as (l' & Hl & Hall).
    exists (m' :: l'). split; [|by constructor].
    by rewrite Hl, Hm, <- app_assoc.
Qed.

Lemma moveScores_le_player (color : Color) (l : list Move) :
  Forall (fun m => is_Some (classification m) ->
                   isPlayerMove m color = true) l ->
  (length (moveScores l)
   <= length (filter (fun m => isPlayerMove m color = true) l))%nat.
Proof.
  induction 1 as [|m l Hm _ IH]; [done|].
  assert (moveScores (m :: l)
          = match classification m with
            | Some c => calculateMoveAccuracy (Some c) :: moveScores l
            | None => moveScores l
            end) as ->
    by (unfold moveScores; simpl; by destruct (classification m)).
  destruct (classification m) as [c|].
  - rewrite filter_cons_True by (apply Hm; by eexists).
    simpl. by apply le_n_S.
  - destruct (decide (isPlayerMove m color = true)).
    + rewrite filter_cons_True by done. simpl. by apply Nat.le_le_succ_r.
    + by rewrite filter_cons_False by done.
Qed.

(** [analyzeGame] returns every move of the game once and in order, with
    the SAN, FEN, move number and colour the parser gave it, also for the
    moves on which [chess.move] or [evaluateMove] threw; it reports the
    game's id, takes the player for white only when the white username is
    exactly the given one, and scores no more moves than the player made. *)
Theorem analyzeGame_keeps_moves (game : Game) (playerUsername : string)
  (a : GameAnalysis) :
  analyzeGame game playerUsername = Some a ->
  exists ms, extractMovesFromPgn (gamePgn game) = Some ms
    /\ Forall2 sameMove ms (moves a)
    /\ length (moves a) = length ms
    /\ gameId a = id game
    /\ (playerColor a = colorWhite <-> username (white game) = playerUsername)
    /\ (length (moveScores (moves a))
        <= length (filter (fun m => isPlayerMove m (playerColor a) = true)
                     (moves a)))%nat.
Proof.
  unfold analyzeGame.
  destruct (extractMovesFromPgn (gamePgn game)) as [ms|] eqn:Hx; [|done].
  intros [= <-]. exists ms. split; [done|]. cbn [moves gameId playerColor].
  set (color := getPlayerColor game playerUsername).
  destruct (analyzeMoves_keeps color ms (mkMoveLoop chess_reset [] 0 0))
    as (l' & Hl & Hall).
  cbn [analyzedMoves] in Hl. rewrite app_nil_l in Hl.
  split; [by rewrite Hl|]. split.
  { rewrite Hl. symmetry. by eapply Forall2_length. }
  split; [done|]. split.
  { unfold color, getPlayerColor. by case_decide. }
  apply moveScores_le_player.
  assert (accuracyInv color
            (foldl (analyzeMove color) (mkMoveLoop chess_reset [] 0 0) ms))
    as (_ & _ & Hp); [|done].
  apply analyzeMoves_inv.
  - unfold extractMovesFromPgn in Hx.
    destruct (loadPgn (gamePgn game)) as [h|]; [|done].
    injection Hx as <-. apply historyToMoves_unclassified.
  - unfold accuracyInv. cbn. repeat split. constructor.
Qed.

End Model.

(** * Properties of the parser and of the game analyzer *)

(** [parseResult] returns one of seven codes; it returns "win" only for
    "win", "draw" exactly for the four drawn endings of Chess.com, and
    "lose" for every code it does not list, "draw" and "lose" included. *)
Theorem parseResult_codes (r : string) :
  parseResult r ∈ ["win"; "checkmated"; "timeout"; "resigned"; "abandoned";
                   "draw"; "lose"]
  /\ (parseResult r = "win" <-> r = "win")
  /\ (parseResult r = "draw" <->
      r ∈ ["agreed"; "stalemate"; "repetition"; "insufficient"])
  /\ (parseResult r = "lose" <->
      r ∉ ["win"; "checkmated"; "timeout"; "resigned"; "abandoned";
           "agreed"; "stalemate"; "repetition"; "insufficient"]).
Proof.
  unfold parseResult.
  destruct (decide (r = "win")) as [->|Hw].
  { split; [by left|]. split; [done|]. split.
    - split; [done|]. rewrite !elem_of_cons. intros H.
      repeat (destruct H as [H|H]; [discriminate|]). by apply elem_of_nil in H.
    - split; [done|]. intros H. destruct H. by left. }
  destruct (decide (r = "checkmated" \/ r = "timeout" \/ r = "resigned"
                    \/ r = "abandoned")) as [Hl|Hl].
  { split.
    - rewrite !elem_of_cons. destruct Hl as [-> | [-> | [-> | ->]]]; auto 10.
    - split; [done|]. split.
      + split; [by destruct Hl as [-> | [-> | [-> | ->]]]|].
        rewrite !elem_of_cons. intros H.
        destruct Hl as [-> | [-> | [-> | ->]]];
          repeat (destruct H as [H|H]; [discriminate|]);
          by apply elem_of_nil in H.
      + split; [by destruct Hl as [-> | [-> | [-> | ->]]]|].
        intros H. destruct H. rewrite !elem_of_cons. tauto. }
  destruct (decide (r = "agreed" \/ r = "stalemate" \/ r = "repetition"
                    \/ r = "insufficient")) as [Hd|Hd].
  { split; [rewrite !elem_of_cons; auto 10|]. split; [done|]. split.
    - split; [|done]. intros _. rewrite !elem_of_cons. tauto.
    - split; [done|]. intros H. destruct H. rewrite !elem_of_cons. tauto. }
  split; [rewrite !elem_of_cons; auto 10|]. split; [done|]. split.
  - split; [done|]. rewrite !elem_of_cons. intros H. destruct Hd.
    destruct H as [?|[?|[?|[?|H]]]]; auto. by apply elem_of_nil in H.
  - split; [|done]. intros _. rewrite !elem_of_cons. intros H.
    destruct H as [?|[?|[?|[?|[?|[?|[?|[?|[?|H]]]]]]]]]; try tauto.
    by apply elem_of_nil in H.
Qed.

Lemma filter_bool_partition {A} (f : A -> bool) (l : list A) :
  (length (filter (fun x => f x = true) l)
   + length (filter (fun x => f x = false) l) = length l)%nat.
Proof.
  induction l as [|x l IH]; [done|]. destruct (f x) eqn:E.
  - rewrite filter_cons_True, filter_cons_False by congruence. simpl. lia.
  - rewrite filter_cons_False, filter_cons_True by congruence. simpl. lia.
Qed.

Lemma imap_white_count (k : nat) (h : list HistoryMove) :
  Z.of_nat (length (filter (fun m => isWhiteMove m = true)
    (imap (fun index move =>
             mkMove (history_san move) (history_after move)
               (Z.of_nat (index + k) / 2 + 1)
               (bool_decide (Z.of_nat (index + k) mod 2 = 0))
               None None None) h)))
  = (Z.of_nat (length h) + 1 - Z.of_nat k mod 2) / 2.
Proof.
  revert k. induction h as [|x h IH]; intros k.
  - simpl. assert (0 <= Z.of_nat k mod 2 < 2) by (apply Z.mod_pos_bound; lia).
    symmetry. apply Z.div_small. lia.
  - rewrite imap_cons.
    rewrite (imap_ext _ (fun index move =>
               mkMove (history_san move) (history_after move)
                 (Z.of_nat (index + S k) / 2 + 1)
                 (bool_decide (Z.of_nat (index + S k) mod 2 = 0))
                 None None None))
      by (intros i y _; simpl; by rewrite Nat.add_succ_r).
    assert (0 <= Z.of_nat k mod 2 < 2) as Hk
      by (apply Z.mod_pos_bound; lia).
    assert (Z.of_nat (S k) mod 2 = 1 - Z.of_nat k mod 2) as HSk.
    { replace (Z.of_nat (S k)) with (Z.of_nat k + 1) by lia.
      rewrite Z.add_mod by lia.
      assert (Z.of_nat k mod 2 = 0 \/ Z.of_nat k mod 2 = 1) as [-> | ->]
        by lia; reflexivity. }
    specialize (IH (S k)). rewrite HSk in IH.
    change (length (x :: h)) with (S (length h)).
    destruct (decide (Z.of_nat k mod 2 = 0)) as [Hev|Hodd].
    + rewrite filter_cons_True
        by (simpl; by rewrite bool_decide_eq_true_2).
      simpl length. rewrite Nat2Z.inj_succ, IH, Hev.
      replace (Z.of_nat (S (length h)) + 1 - 0)
        with ((Z.of_nat (length h) + 1 - (1 - 0)) + 1 * 2) by lia.
      rewrite Z.div_add by lia. lia.
    + rewrite filter_cons_False
        by (simpl; by rewrite bool_decide_eq_false_2).
      rewrite IH. f_equal. lia.
Qed.

(** The move list built from a history of [n] plies has [n] moves; white
    owns the plies at even positions, so white has the upper half of [n]
    and black the lower half; the ply at position [i] carries the move
    number [i / 2 + 1], the SAN and the FEN of the history entry, and no
    classification. *)
Theorem historyToMoves_plies (h : list HistoryMove) :
  let ms := historyToMoves h in
  length ms = length h
  /\ Z.of_nat (length (filter (fun m => isWhiteMove m = true) ms))
     = (Z.of_nat (length h) + 1) / 2
  /\ Z.of_nat (length (filter (fun m => isWhiteMove m = false) ms))
     = Z.of_nat (length h) / 2
  /\ (forall i m, ms !! i = Some m ->
        isWhiteMove m = Nat.even i
        /\ moveNumber m = Z.of_nat (i / 2) + 1
        /\ classification m = None
        /\ exists hm, h !! i = Some hm
             /\ san m = history_san hm /\ fen m = history_after hm).
Proof.
  cbv zeta.
  assert (Z.of_nat (length (filter (fun m => isWhiteMove m = true)
                              (historyToMoves h)))
          = (Z.of_nat (length h) + 1) / 2) as Hwhite.
  { unfold historyToMoves.
    rewrite (imap_ext _ (fun index move =>
               mkMove (history_san move) (history_after move)
                 (Z.of_nat (index + 0) / 2 + 1)
                 (bool_decide (Z.of_nat (index + 0) mod 2 = 0))
                 None None None))
      by (intros i y _; simpl; by rewrite Nat.add_0_r).
    rewrite imap_white_count. change (Z.of_nat 0 mod 2) with 0.
    by rewrite Z.sub_0_r. }
  assert (length (historyToMoves h) = length h) as Hlen
    by (unfold historyToMoves; apply length_imap).
  split; [done|]. split; [done|]. split.
  - pose proof (filter_bool_partition isWhiteMove (historyToMoves h)) as Hp.
    rewrite Hlen in Hp.
    assert (Z.of_nat (length h)
            = (Z.of_nat (length h) + 1) / 2 + Z.of_nat (length h) / 2) as Hn.
    { generalize (Z.of_nat (length h)). intros n.
      pose proof (Z.div_mod n 2) as H1. pose proof (Z.mod_pos_bound n 2) as H2.
      pose proof (Z.div_mod (n + 1) 2) as H3.
      pose proof (Z.mod_pos_bound (n + 1) 2) as H4.
      assert ((n + 1) mod 2 = 1 - n mod 2) as H5.
      { rewrite Z.add_mod by lia.
        assert (n mod 2 = 0 \/ n mod 2 = 1) as [-> | ->] by lia; reflexivity. }
      lia. }
    lia.
  - intros i m Hm. unfold historyToMoves in Hm.
    rewrite list_lookup_imap in Hm.
    destruct (h !! i) as [hm|]; [|done]. injection Hm as <-.
    cbn [isWhiteMove moveNumber classification san fen].
    split; [|split; [|split; [done|by exists hm]]].
    + destruct (Nat.even i) eqn:Hev.
      * apply bool_decide_eq_true_2. apply Nat.even_spec in Hev as [j ->].
        rewrite Nat2Z.inj_mul. change (Z.of_nat 2) with 2.
        rewrite Z.mul_comm. apply Z.mod_mul. lia.
      * apply bool_decide_eq_false_2.
        assert (Nat.odd i = true) as Hodd
          by (rewrite <- Nat.negb_even; by rewrite Hev).
        apply Nat.odd_spec in Hodd as [j ->].
        rewrite Nat2Z.inj_add, Nat2Z.inj_mul.
        change (Z.of_nat 2) with 2. change (Z.of_nat 1) with 1.
        rewrite Z.add_comm, Z.mul_comm, Z.mod_add by lia. done.
    + by rewrite (Nat2Z.inj_div i 2).
Qed.

Lemma filter_Forall_not {A} (P : A -> Prop) `{!forall x, Decision (P x)}
  (l : list A) :
  Forall (fun x => ~ P x) l -> filter P l = [].
Proof.
  induction 1 as [|x l Hx _ IH]; [done|]. by rewrite filter_cons_False.
Qed.

(** The patterns reported for a game: at most two, the tactical one exactly
    when the player blundered and the positional one exactly when the
    player made a mistake; the frequency counts all such moves of the
    player, the examples are at most three, a tactical pattern is never
    minor and is major from three blunders on, a positional pattern is never
    major and is moderate from four mistakes on. *)
Theorem identifyMistakePatterns_shape (ms : list Move) (color : Color) :
  let playerMoves := filter (fun m => isPlayerMove m color = true) ms in
  let nb := length (filter (fun m => classification m = Some blunder)
                      playerMoves) in
  let nm := length (filter (fun m => classification m = Some mistake)
                      playerMoves) in
  let ps := identifyMistakePatterns ms color in
  (length ps <= 2)%nat
  /\ (forall p, p ∈ ps ->
        (0 < frequency p)%nat
        /\ length (examples p) = Nat.min 3 (frequency p)
        /\ match pattern_type p with
           | tactical =>
               frequency p = nb /\ severity p <> minor
               /\ (severity p = major <-> (2 < nb)%nat)
           | positional =>
               frequency p = nm /\ severity p <> major
               /\ (severity p = moderate <-> (3 < nm)%nat)
           end)
  /\ ((exists p, p ∈ ps /\ pattern_type p = tactical) <-> (0 < nb)%nat)
  /\ ((exists p, p ∈ ps /\ pattern_type p = positional) <-> (0 < nm)%nat).
Proof.
  cbv zeta. unfold identifyMistakePatterns.
  set (bl := filter (fun m => classification m = Some blunder)
               (filter (fun m => isPlayerMove m color = true) ms)).
  set (mi := filter (fun m => classification m = Some mistake)
               (filter (fun m => isPlayerMove m color = true) ms)).
  assert (forall label l,
    length (patternExamples label l) = Nat.min 3 (length l)) as Hex.
  { intros label l. unfold patternExamples.
    by rewrite length_fmap, length_take. }
  destruct (decide (0 < length bl)%nat) as [Hb|Hb];
    destruct (decide (0 < length mi)%nat) as [Hm|Hm]; simpl.
  - split; [lia|]. split; [|split].
    + intros p Hp. apply elem_of_cons in Hp as [->|Hp];
        [|apply list_elem_of_singleton in Hp as ->]; simpl;
        (split; [done|]); (split; [apply Hex|]); (split; [done|]);
        case_decide; split; done || (split; [done|lia]) || idtac.
      all: try (split; [discriminate|lia]).
    + split; [done|]. intros _. eexists. split; [by left|done].
    + split; [done|]. intros _. eexists. split; [right; by left|done].
  - split; [lia|]. split; [|split].
    + intros p Hp. apply list_elem_of_singleton in Hp as ->. simpl.
      split; [done|]. split; [apply Hex|]. split; [done|].
      case_decide; split; done || (split; [done|lia]) || idtac.
      all: try (split; [discriminate|lia]).
    + split; [done|]. intros _. eexists. split; [by left|done].
    + split; [|lia]. intros (p & Hp & Ht).
      apply list_elem_of_singleton in Hp as ->. discriminate.
  - split; [lia|]. split; [|split].
    + intros p Hp. apply list_elem_of_singleton in Hp as ->. simpl.
      split; [done|]. split; [apply Hex|]. split; [done|].
      case_decide; split; done || (split; [done|lia]) || idtac.
      all: try (split; [discriminate|lia]).
    + split; [|lia]. intros (p & Hp & Ht).
      apply list_elem_of_singleton in Hp as ->. discriminate.
    + split; [done|]. intros _. eexists. split; [by left|done].
  - split; [lia|]. split; [|split].
    + intros p Hp. by apply elem_of_nil in Hp.
    + split; [|lia]. intros (p & Hp & _). by apply elem_of_nil in Hp.
    + split; [|lia]. intros (p & Hp & _). by apply elem_of_nil in Hp.
Qed.

Lemma not_elem_of_by_decide (x : string) (l : list string) :
  bool_decide (x ∈ l) = false -> x ∈ l -> False.
Proof. intros H. by apply bool_decide_eq_false in H. Qed.

(** [generateRecommendations] never returns an empty list and never more
    than seven entries; the praise is returned exactly when no other advice
    applies, in particular when no move is classified as an inaccuracy, a
    mistake or a blunder; more than two blunders always bring the tactical
    advice; and the second argument has no influence. *)
Theorem generateRecommendations_nonempty (ms : list Move)
  (mistakes mistakes' : list MistakePattern) :
  let rs := generateRecommendations ms mistakes in
  let praise := "Great game! Continue practicing to maintain this level" in
  rs <> []
  /\ (length rs <= 7)%nat
  /\ generateRecommendations ms mistakes' = rs
  /\ (praise ∈ rs <-> rs = [praise])
  /\ (Forall (fun m => classification m <> Some blunder
                       /\ classification m <> Some mistake
                       /\ classification m <> Some inaccuracy) ms ->
      rs = [praise])
  /\ ((2 < length (filter (fun m => classification m = Some blunder) ms))%nat ->
      "Focus on tactical training - solve 10-15 tactical puzzles daily" ∈ rs).
Proof.
  cbv zeta. split; [|split; [|split; [done|split; [|split]]]].
  - unfold generateRecommendations. cbv zeta.
    by destruct (_ ++ _)%list.
  - unfold generateRecommendations. cbv zeta.
    repeat case_decide; simpl; lia.
  - unfold generateRecommendations. cbv zeta.
    repeat case_decide; simpl; (split; [intros Hin|intros Heq]);
      try done; try (by left); try discriminate;
      exfalso; revert Hin; apply not_elem_of_by_decide; by vm_compute.
  - intros Hall. unfold generateRecommendations, isMistakeOrBlunder.
    cbv zeta.
    assert (forall l : list Move,
      Forall (fun m => classification m <> Some blunder
                       /\ classification m <> Some mistake
                       /\ classification m <> Some inaccuracy) l ->
      filter (fun m => classification m = Some blunder) l = []
      /\ filter (fun m => classification m = Some mistake) l = []
      /\ filter (fun m => classification m = Some inaccuracy) l = []
      /\ filter (fun m => classification m = Some mistake
                          \/ classification m = Some blunder) l = [])
      as Hnone.
    { intros l Hl. repeat split; apply filter_Forall_not;
        (eapply Forall_impl; [exact Hl|]); intros m (? & ? & ?); tauto. }
    destruct (Hnone ms Hall) as (-> & -> & -> & _).
    destruct (Hnone (take 15 ms) (Forall_take _ _ _ Hall)) as (_ & _ & _ & ->).
    destruct (Hnone (sliceLast ms 15) (Forall_drop _ _ _ Hall))
      as (_ & _ & _ & ->).
    done.
  - intros Hb. unfold generateRecommendations. cbv zeta.
    rewrite (decide_True (P := (2 < _)%nat)) by exact Hb.
    simpl. by left.
Qed.

Lemma thresholds_ordered :
  (threshold_1_0 <= threshold_0_5)%Q /\ (threshold_0_5 <= threshold_0_25)%Q
  /\ (threshold_0_25 <= threshold_0_1)%Q.
Proof. repeat split; by apply Qle_bool_imp_le. Qed.

(** [classifyMove] calls the best move excellent whatever the evaluation
    difference, and the accuracy score of its verdict never decreases when
    the evaluation difference increases.  For a move that is not the best
    one the explanation of [generateMoveExplanation] is one tier harsher
    than the classification: "Inaccuracy" goes with good, "Mistake" with
    inaccuracy, and "Blunder" with both mistake and blunder. *)
Theorem classifyMove_tiers (d1 d2 : Q) (move bestMove : string) :
  classifyMove d1 move move = excellent
  /\ ((d1 <= d2)%Q ->
      calculateMoveAccuracy (Some (classifyMove d1 move bestMove))
      <= calculateMoveAccuracy (Some (classifyMove d2 move bestMove)))
  /\ (move <> bestMove ->
      (startsWith (generateMoveExplanation d1 move bestMove) "Good move" = true
       <-> classifyMove d1 move bestMove = excellent)
      /\ (startsWith (generateMoveExplanation d1 move bestMove) "Inaccuracy."
          = true <-> classifyMove d1 move bestMove = good)
      /\ (startsWith (generateMoveExplanation d1 move bestMove) "Mistake."
          = true <-> classifyMove d1 move bestMove = inaccuracy)
      /\ (startsWith (generateMoveExplanation d1 move bestMove) "Blunder!"
          = true <-> classifyMove d1 move bestMove = mistake
                     \/ classifyMove d1 move bestMove = blunder)).
Proof.
  destruct thresholds_ordered as (H10 & H05 & H025).
  split; [|split].
  - unfold classifyMove. by rewrite decide_True.
  - intros Hle. unfold classifyMove.
    destruct (decide (move = bestMove)); [done|].
    assert (forall t, Qle_bool t d1 = true -> Qle_bool t d2 = true) as Hmono.
    { intros t Ht. apply Qle_bool_iff. apply Qle_bool_iff in Ht.
      by eapply Qle_trans. }
    assert (forall t t', (t' <= t)%Q -> Qle_bool t d2 = true ->
                         Qle_bool t' d2 = true) as Hdown.
    { intros t t' Htt Ht. apply Qle_bool_iff. apply Qle_bool_iff in Ht.
      by eapply Qle_trans. }
    destruct (Qle_bool threshold_0_1 d1) eqn:E1.
    { by rewrite (Hmono _ E1). }
    destruct (Qle_bool threshold_0_1 d2) eqn:F1;
      [by repeat case_match|].
    destruct (Qle_bool threshold_0_25 d1) eqn:E2.
    { by rewrite (Hmono _ E2). }
    destruct (Qle_bool threshold_0_25 d2) eqn:F2;
      [by repeat case_match|].
    destruct (Qle_bool threshold_0_5 d1) eqn:E3.
    { by rewrite (Hmono _ E3). }
    destruct (Qle_bool threshold_0_5 d2) eqn:F3;
      [by repeat case_match|].
    destruct (Qle_bool threshold_1_0 d1) eqn:E4.
    { by rewrite (Hmono _ E4). }
    by destruct (Qle_bool threshold_1_0 d2).
  - intros Hne. unfold classifyMove, generateMoveExplanation.
    rewrite !decide_False by done.
    destruct (Qle_bool threshold_0_1 d1);
      [by repeat split; try intros [|]|].
    destruct (Qle_bool threshold_0_25 d1);
      [by repeat split; try intros [|]|].
    destruct (Qle_bool threshold_0_5 d1);
      [by repeat split; try intros [|]|].
    destruct (Qle_bool threshold_1_0 d1);
      repeat split; try done; try (by intros [|]); by auto.
Qed.

Lemma squares_balance_shift (row : list (option Piece)) (b : Z) :
  foldl (fun balance square =>
           match square with
           | Some piece =>
               balance + (if decide (piece_color piece = pieceWhite)
                          then pieceValues (piece_type piece)
                          else - pieceValues (piece_type piece))
           | None => balance
           end) b row
  = b + calculateMaterialBalance [row].
Proof.
  unfold calculateMaterialBalance. simpl.
  set (step := fun (balance : Z) (square : option Piece) =>
           match square with
           | Some piece =>
               balance + (if decide (piece_color piece = pieceWhite)
                          then pieceValues (piece_type piece)
                          else - pieceValues (piece_type piece))
           | None => balance
           end).
  revert b. induction row as [|sq row IH]; intros b; simpl; [lia|].
  rewrite (IH (step b sq)), (IH (step 0 sq)).
  unfold step. destruct sq; lia.
Qed.

Lemma board_balance_shift (board : list (list (option Piece))) (b : Z) :
  foldl (fun balance row =>
           foldl (fun balance square =>
                    match square with
                    | Some piece =>
                        let value := pieceValues (piece_type piece) in
                        balance + (if decide (piece_color piece = pieceWhite)
                                   then value else - value)
                    | None => balance
                    end)
                 balance row)
        b board
  = b + calculateMaterialBalance board.
Proof.
  unfold calculateMaterialBalance.
  set (outer := fun (balance : Z) (row : list (option Piece)) =>
           foldl (fun balance square =>
                    match square with
                    | Some piece =>
                        let value := pieceValues (piece_type piece) in
                        balance + (if decide (piece_color piece = pieceWhite)
                                   then value else - value)
                    | None => balance
                    end)
                 balance row).
  assert (forall row c, outer c row = c + outer 0 row) as Hrow.
  { intros row c. unfold outer. cbv zeta.
    rewrite (squares_balance_shift row c), (squares_balance_shift row 0).
    lia. }
  revert b. induction board as [|r board IH]; intros b; simpl; [lia|].
  rewrite (IH (outer b r)), (IH (outer 0 r)), (Hrow r b). lia.
Qed.

Lemma balance_cons (row : list (option Piece))
  (board : list (list (option Piece))) :
  calculateMaterialBalance (row :: board)
  = calculateMaterialBalance [row] + calculateMaterialBalance board.
Proof.
  unfold calculateMaterialBalance at 1 2. simpl.
  by rewrite board_balance_shift.
Qed.

Lemma balance_square_cons (square : option Piece)
  (row : list (option Piece)) :
  calculateMaterialBalance [square :: row]
  = match square with
    | Some piece =>
        if decide (piece_color piece = pieceWhite)
        then pieceValues (piece_type piece)
        else - pieceValues (piece_type piece)
    | None => 0
    end + calculateMaterialBalance [row].
Proof.
  unfold calculateMaterialBalance at 1. cbn [foldl]. cbv zeta.
  rewrite squares_balance_shift. by destruct square.
Qed.

(** The material balance changes sign when the colours of all pieces are
    exchanged, is 0 on a board that holds only kings, and is bounded by nine
    points per piece on the board. *)
Theorem calculateMaterialBalance_symmetric
  (board : list (list (option Piece))) :
  calculateMaterialBalance (swapColors board) = - calculateMaterialBalance board
  /\ (Forall (Forall (fun square =>
                forall piece, square = Some piece -> piece_type piece = king))
        board -> calculateMaterialBalance board = 0)
  /\ Z.abs (calculateMaterialBalance board)
     <= 9 * Z.of_nat (length (filter is_Some (concat board))).
Proof.
  assert (forall row : list (option Piece),
    calculateMaterialBalance
      [(fun square : option Piece => swapColor <$> square) <$> row]
      = - calculateMaterialBalance [row]
    /\ (Forall (fun square => forall piece, square = Some piece ->
                              piece_type piece = king) row ->
        calculateMaterialBalance [row] = 0)
    /\ Z.abs (calculateMaterialBalance [row])
       <= 9 * Z.of_nat (length (filter is_Some row))) as Hrow.
  { induction row as [|sq row (IH1 & IH2 & IH3)]; [by repeat split|].
    rewrite fmap_cons, !balance_square_cons, IH1.
    destruct sq as [[t c]|].
    - rewrite filter_cons_True by (by eexists).
      cbn [fmap option_fmap option_map swapColor piece_type piece_color length].
      split; [destruct c; simpl; lia|]. split.
      + intros Hk. apply Forall_cons in Hk as [Hk Hrest].
        rewrite (IH2 Hrest). specialize (Hk _ eq_refl). simpl in Hk.
        subst t. by destruct c.
      + rewrite Nat2Z.inj_succ. destruct c, t; simpl; lia.
    - rewrite filter_cons_False by (by intros [??]).
      cbn [fmap option_fmap option_map].
      split; [lia|]. split; [|lia].
      intros Hk. apply Forall_cons in Hk as [_ Hrest]. by rewrite (IH2 Hrest). }
  induction board as [|row board (IH1 & IH2 & IH3)]; [by repeat split|].
  change (swapColors (row :: board))
    with (((fun square : option Piece => swapColor <$> square) <$> row)
          :: swapColors board).
  rewrite (balance_cons row board), (balance_cons _ (swapColors board)).
  destruct (Hrow row) as (R1 & R2 & R3). rewrite R1, IH1.
  split; [lia|]. split.
  - intros Hk. apply Forall_cons in Hk as [Hr Hb]. rewrite (R2 Hr), (IH2 Hb).
    done.
  - cbn [concat]. rewrite filter_app, length_app. lia.
Qed.

(** * Concrete runs *)

Module Examples.

#[local] Existing Instance textJSON.
#[local] Existing Instance sampleGameJSON.

Lemma text_roundtrip (a : string) : JSON_parse (JSON_stringify a) = Some a.
Proof. reflexivity. Defined.

(** C1, as stated, fails: after alice's and then bob's analysis of game g1
    are stored, alice's is no longer there. *)
Lemma C1_counterexample :
  let s := cacheAnalysis "g1" "bob" "B" 2
             (cacheAnalysis "g1" "alice" "A" 1 (@emptyCache unit)) in
  toLowerCase "alice" <> toLowerCase "bob"
  /\ getCachedAnalysis "g1" "bob" s = Some "B"
  /\ getCachedAnalysis "g1" "alice" s = @None string
  /\ getCachedAnalysis "g1" "alice" s <> Some "A".
Proof. cbv zeta. repeat split; [discriminate|vm_compute; discriminate]. Qed.

Lemma C1_witness :
  let s2 := cacheAnalysis "g1" "Bob" "B" 2
              (cacheAnalysis "g1" "alice" "A" 1 (@emptyCache unit)) in
  (forall a : string, JSON_parse (JSON_stringify a) = Some a)
  /\ s2 = cacheAnalysis "g1" "Bob" "B" 2 emptyCache
  /\ getCachedAnalysis "g1" "Bob" s2 = Some "B"
  /\ getCachedAnalysis "g1" "alice" s2 = @None string.
Proof.
  cbv zeta. split; [exact text_roundtrip|].
  destruct (C1_analysis_keyed_by_uuid text_roundtrip
              "g1" "alice" "Bob" "A" "B" 1 2 (@emptyCache unit))
    as (H1 & H2 & H3 & _).
  split; [exact H1|]. split; [exact H2|]. apply H3. discriminate.
Defined.



Lemma C3_witness :
  let g2 := sampleGame "g2" "1. e4 e5" in
  let g4 := sampleGame "g4" "1. e4 e5" in
  let g5 := sampleGame "g5" "1. e4 e5" in
  let cached := getCachedAnalyses "bob" ["g2"; "g4"; "g5"] (@emptyCache unit) in
  let afterFailure :=
    analyzeLoop sampleLoadPgn sampleAnalyze "bob" cached (fun _ => 1) 0
      [g2; g4] (mkLoopState (@emptyCache unit) [] 0 0 []) in
  gameOutcome sampleLoadPgn sampleAnalyze "bob" cached g4 = @None string
  /\ analyses afterFailure = ["analysis of g2 for bob"]
  /\ getCachedAnalysis "g2" "bob" (store afterFailure)
     = Some "analysis of g2 for bob".
Proof.
  cbv zeta. split; [reflexivity|]. split; [reflexivity|].
  refine (proj2 (proj2 (proj2
    (C3_write_through sampleLoadPgn sampleAnalyze text_roundtrip "bob"
       [] [sampleGame "g4" "1. e4 e5"] [sampleGame "g5" "1. e4 e5"]
       (sampleGame "g2" "1. e4 e5")
       (mkGame "g2" EmptyString "1. e4 e5" "600" "rapid" 1700000000000 true
          (mkPlayer "alice" 1500 "win") (mkPlayer "bob" 1480 "resigned")
          "chess")
       "analysis of g2 for bob" (fun _ => 1) (@emptyCache unit)
       _ _ _ _)))).
  - reflexivity.
  - reflexivity.
  - reflexivity.
  - intros Hin. apply list_elem_of_singleton in Hin. discriminate.
Defined.

Lemma C4_witness :
  let w0 := mkWorld (@emptyCache unit) [] in
  let first := getMonthlyGames utcFullYear utcMonth sampleFetch
                 "Alice" 2023 11 1700000000000 1700000000200 w0 in
  let second := getMonthlyGames utcFullYear utcMonth sampleFetch
                  "alice" 2023 11 1700000060000 1700000060200 (snd first) in
  fst first = sampleFetch 0 "Alice" 2023 11
  /\ fetchLog (snd first) = [("Alice", 2023, 11)]
  /\ games (cache (snd first)) !! "g2"
     = Some (mkGameRow "alice" 2023 11 "g2:1. d4 d5" 1700000000200)
  /\ getMonthlyGames utcFullYear utcMonth sampleFetch
       "Alice" 2023 11 1700000060000 1700000060200 (snd first)
     = (fst first, snd first)
  /\ second = (fst first, snd first).
Proof.
  cbv zeta.
  destruct (C4_monthly_fetch_once utcFullYear utcMonth sampleFetch
              "Alice" 2023 11 1700000000000 1700000000200
              (mkWorld (@emptyCache unit) []))
    as (_ & Hmiss & _).
  destruct (Hmiss [sampleGame "g1" "1. e4 e5"; sampleGame "g2" "1. d4 d5"]
              eq_refl eq_refl) as (H1 & H2 & _ & _ & H5).
  split; [exact H1|]. split; [exact H2|]. split; [reflexivity|].
  split; [|reflexivity].
  rewrite H1. apply H5. unfold CURRENT_MONTH_TTL. lia.
Defined.

Lemma C5_witness :
  let s0 := cacheMonthlyGames "Alice" 2023 11 [sampleGame "g1" "1. e4 e5"]
              1700000000000 (@emptyCache unit) in
  let s1 := cacheMonthlyGames "Alice" 2023 10 [sampleGame "g0" "1. c4 c5"]
              1700000000000 (@emptyCache unit) in
  (CURRENT_MONTH_TTL < 1700000600000 - 1700000000000 < MONTHLY_GAMES_TTL)
  /\ (utcFullYear 1700000600000 = 2023 /\ utcMonth 1700000600000 + 1 = 11)
  /\ fst (getCachedMonthlyGames utcFullYear utcMonth "Alice" 2023 11
            1700000600000 s0) = None
  /\ getCachedMonthlyGames utcFullYear utcMonth "Alice" 2023 10
       1700000600000 s1
     = (Some [sampleGame "g0" "1. c4 c5"], s1).
Proof.
  cbv zeta.
  assert (CURRENT_MONTH_TTL < 1700000600000 - 1700000000000
          < MONTHLY_GAMES_TTL) as Hage
    by (unfold CURRENT_MONTH_TTL, MONTHLY_GAMES_TTL; lia).
  split; [exact Hage|]. split; [split; reflexivity|]. split.
  - apply (C5_monthly_ttl_class utcFullYear utcMonth "Alice" 2023 11
             [sampleGame "g1" "1. e4 e5"] 1700000000000 1700000600000
             (@emptyCache unit) Hage).
    split; reflexivity.
  - apply (C5_monthly_ttl_class utcFullYear utcMonth "Alice" 2023 10
             [sampleGame "g0" "1. c4 c5"] 1700000000000 1700000600000
             (@emptyCache unit) Hage).
    intros [_ Hm]. discriminate Hm.
Defined.

(** C6, as stated, fails: one hour after it was stored, to the millisecond,
    the profile is still served. *)
Lemma C6_counterexample :
  let s := cacheUserProfile "alice" "profile of alice" 1700000000000
             (@emptyCache string) in
  let now := 1700003600000 in
  now - 1700000000000 >= USER_PROFILE_TTL
  /\ timestamp <$> (userProfileCache s !! "alice") = Some 1700000000000
  /\ getCachedUserProfile "alice" now s = (Some "profile of alice", s).
Proof. cbv zeta. repeat split; vm_compute; congruence. Qed.

Lemma C6_witness :
  let s := cacheUserProfile "Alice" "profile of alice" 1700000000000
             (@emptyCache string) in
  getCachedUserProfile "Alice" 1700003600001 s
  = (None, set_userProfileCache s (delete "alice" (userProfileCache s)))
  /\ getCachedUserProfile "Alice" 1700003600000 s
     = (Some "profile of alice", s).
Proof.
  cbv zeta. split.
  - destruct (C6_profile_read_strict "Alice" 1700003600001
                (@emptyCache string)) as (_ & _ & _ & _ & H).
    exact (H "profile of alice" 1700000000000).
  - destruct (C6_profile_read_strict "Alice" 1700003600000
                (@emptyCache string)) as (_ & _ & _ & _ & H).
    exact (H "profile of alice" 1700000000000).
Defined.

Lemma C7_witness :
  toLowerCase "Alice" = toLowerCase "aLICE"
  /\ getCachedAnalysis "g1" "aLICE"
       (cacheAnalysis "g1" "Alice" "A1" 5 (@emptyCache unit)) = Some "A1"
  /\ getCachedAnalyses "aLICE" ["g0"; "g1"]
       (cacheAnalysis "g1" "Alice" "A1" 5 (@emptyCache unit)) !! "g1"
     = Some "A1".
Proof.
  split; [reflexivity|].
  destruct (C7_username_case_insensitive utcFullYear utcMonth text_roundtrip
              "Alice" "aLICE"
              eq_refl "g1" "A1" 5 (@emptyCache unit))
    as (_ & _ & _ & H4 & H5 & _).
  split; [exact H4|]. apply H5. set_solver.
Defined.

Lemma C8_witness :
  let g1 := sampleGame "g1" "1. e4 e5" in
  let g4 := sampleGame "g4" "1. e4 e5" in
  let g5 := sampleGame "g5" "bad" in
  let g6 := sampleGame "g6" "1. e4 e5" in
  let s := @emptyCache unit in
  analyses (analyzeBatch sampleLoadPgn sampleAnalyze "bob" [g1; g4; g6]
              (fun _ => 1) s)
  = ["analysis of g1 for bob"; "analysis of g6 for bob"]
  /\ length (analyses (analyzeBatch sampleLoadPgn sampleAnalyze "bob"
                         [g1; g5; g6] (fun _ => 1) s)) = 2%nat.
Proof.
  cbv zeta. split; [reflexivity|].
  refine (proj1
    (C8_skip_failed_game sampleLoadPgn sampleAnalyze "bob"
       [sampleGame "g1" "1. e4 e5"] [sampleGame "g6" "1. e4 e5"]
       (sampleGame "g5" "bad") (fun _ => 1) (@emptyCache unit) _ _)).
  - left. reflexivity.
  - intros g Hg.
    repeat (apply elem_of_cons in Hg as [->|Hg]);
      [..|by apply elem_of_nil in Hg];
      (eexists; split; [reflexivity|]); right; eexists; reflexivity.
Defined.

(** C9: clearing the monthly batches of "bob" also removes the batch of
    "bobby", whose key starts with "bob"; the clear of table [games] for
    "bob" leaves the row of "bobby" in place. *)
Lemma C9_monthly_clear_removes_other_user :
  let s := cacheGame utcFullYear utcMonth (sampleGame "g2" "1. d4 d5")
             "bobby" 0
             (cacheMonthlyGames "bobby" 2024 1 [sampleGame "g2" "1. d4 d5"] 0
                (cacheMonthlyGames "bob" 2024 1 [sampleGame "g1" "1. e4 e5"] 0
                   (@emptyCache unit))) in
  toLowerCase "bobby" <> toLowerCase "bob"
  /\ data <$> (monthlyGamesCache s !! monthlyKey "bobby" 2024 1)
     = Some [sampleGame "g2" "1. d4 d5"]
  /\ monthlyGamesCache (clearMonthlyGamesCache (Some "bob") s)
       !! monthlyKey "bobby" 2024 1 = None
  /\ game_username <$> (games (clearGameCache (Some "bob") s) !! "g2")
     = Some "bobby".
Proof.
  cbv zeta. split; [discriminate|]. split; [reflexivity|]. split.
  - by rewrite clearMonthlyGamesCache_lookup.
  - rewrite clearGameCache_lookup by done. reflexivity.
Qed.


Lemma cacheGame_roundtrip_witness :
  let g := sampleGame "g1" "1. e4 e5" in
  JSON_parse (JSON_stringify g) = Some g
  /\ getCachedGame "g1"
       (cacheGame utcFullYear utcMonth g "Alice" 5 (@emptyCache unit))
     = Some g.
Proof.
  cbv zeta. split; [reflexivity|].
  exact (proj1 (cacheGame_roundtrip utcFullYear utcMonth
                  (sampleGame "g1" "1. e4 e5") "Alice" 5 (@emptyCache unit)
                  eq_refl)).
Defined.

Lemma cacheGames_roundtrip_witness :
  let gs := [sampleGame "g1" "1. e4 e5"; sampleGame "g2" "1. d4 d5"] in
  NoDup (uuid <$> gs)
  /\ getCachedGame "g2"
       (cacheGames utcFullYear utcMonth gs "Alice" 5 (@emptyCache unit))
     = Some (sampleGame "g2" "1. d4 d5")
  /\ getCachedGame "g3"
       (cacheGames utcFullYear utcMonth gs "Alice" 5 (@emptyCache unit))
     = None.
Proof.
  cbv zeta.
  assert (NoDup (uuid <$> [sampleGame "g1" "1. e4 e5";
                           sampleGame "g2" "1. d4 d5"])) as Hnd.
  { apply NoDup_cons. split; [|apply NoDup_singleton].
    intros Hin. apply list_elem_of_singleton in Hin. discriminate. }
  split; [exact Hnd|].
  destruct (cacheGames_roundtrip utcFullYear utcMonth
              [sampleGame "g1" "1. e4 e5"; sampleGame "g2" "1. d4 d5"]
              "Alice" 5 (@emptyCache unit) Hnd) as (H1 & H2 & _).
  split.
  - apply (H1 (sampleGame "g2" "1. d4 d5")); [|reflexivity].
    right. by left.
  - rewrite (H2 "g3"); [reflexivity|].
    intros Hin. repeat (apply elem_of_cons in Hin as [Hin|Hin];
                        [discriminate|]).
    by apply elem_of_nil in Hin.
Defined.


Lemma clearMonthlyGamesCache_own_witness :
  let s := cacheMonthlyGames "carol" 2024 2 [] 0
             (cacheMonthlyGames "Bob" 2024 1 [sampleGame "g1" "1. e4 e5"] 0
                (@emptyCache unit)) in
  let s1 := clearMonthlyGamesCache (Some "bob") s in
  truthy "bob" = true
  /\ getCachedMonthlyGames utcFullYear utcMonth "BOB" 2024 1 1 s1 = (None, s1)
  /\ monthlyGamesCache s1 !! monthlyKey "carol" 2024 2
     = monthlyGamesCache s !! monthlyKey "carol" 2024 2.
Proof.
  cbv zeta. split; [reflexivity|].
  destruct (clearMonthlyGamesCache_own utcFullYear utcMonth "bob"
              (cacheMonthlyGames "carol" 2024 2 [] 0
                 (cacheMonthlyGames "Bob" 2024 1
                    [sampleGame "g1" "1. e4 e5"] 0 (@emptyCache unit)))
              eq_refl) as (H1 & H2 & _).
  split; [by apply H1|]. by apply H2.
Defined.

Lemma monthly_put_get_witness :
  toLowerCase "ALICE" = toLowerCase "Alice"
  /\ getCachedMonthlyGames utcFullYear utcMonth "ALICE" 2023 11 1700000300000
       (cacheMonthlyGames "Alice" 2023 11 [sampleGame "g1" "1. e4 e5"]
          1700000000000 (@emptyCache unit))
     = (Some [sampleGame "g1" "1. e4 e5"],
        cacheMonthlyGames "Alice" 2023 11 [sampleGame "g1" "1. e4 e5"]
          1700000000000 (@emptyCache unit))
  /\ fst (getCachedMonthlyGames utcFullYear utcMonth "ALICE" 2023 11
            1700000300001
            (cacheMonthlyGames "Alice" 2023 11 [sampleGame "g1" "1. e4 e5"]
               1700000000000 (@emptyCache unit)))
     = None.
Proof.
  split; [reflexivity|]. split.
  - exact (monthly_put_get utcFullYear utcMonth "Alice" "ALICE" 2023 11
             [sampleGame "g1" "1. e4 e5"] 1700000000000 1700000300000
             (@emptyCache unit) eq_refl).
  - rewrite (monthly_put_get utcFullYear utcMonth "Alice" "ALICE" 2023 11
               [sampleGame "g1" "1. e4 e5"] 1700000000000 1700000300001
               (@emptyCache unit) eq_refl).
    reflexivity.
Defined.

Lemma analyzeBatch_rerun_witness :
  let rawGames := (fun g => sampleGame g "1. e4 e5") <$> ["g1"; "g4"; "g5"] in
  let st := analyzeBatch sampleLoadPgn sampleAnalyze "Bob" rawGames
              (fun _ => 1) (@emptyCache unit) in
  let st' := analyzeBatch sampleLoadPgn sampleAnalyze "bob" rawGames
               (fun _ => 2) (store st) in
  NoDup (uuid <$> rawGames)
  /\ toLowerCase "bob" = toLowerCase "Bob"
  /\ analyzeCalls (trace st) = ["g1"; "g4"; "g5"]
  /\ analyzeCalls (trace st') = ["g4"]
  /\ getCachedAnalysis "g5" "bob" (store st) = Some "analysis of g5 for Bob".
Proof.
  cbv zeta.
  assert (NoDup (uuid <$> ((fun g => sampleGame g "1. e4 e5")
                             <$> ["g1"; "g4"; "g5"]))) as Hnd.
  { repeat (apply NoDup_cons; split;
            [intros Hin;
             repeat (apply elem_of_cons in Hin as [Hin|Hin]; [discriminate|]);
             by apply elem_of_nil in Hin|]).
    apply NoDup_nil_2. }
  split; [exact Hnd|]. split; [reflexivity|]. split; [reflexivity|].
  destruct (analyzeBatch_rerun sampleLoadPgn sampleAnalyze text_roundtrip
              "Bob" "bob"
              ((fun g => sampleGame g "1. e4 e5") <$> ["g1"; "g4"; "g5"])
              (fun _ => 1) (fun _ => 2) (@emptyCache unit) Hnd eq_refl)
    as (H1 & H2 & _).
  split; [rewrite H2; reflexivity|].
  apply (H1 (sampleGame "g5" "1. e4 e5")).
  - right. right. by left.
  - eexists. split; [reflexivity|]. reflexivity.
Defined.

Lemma analyzeGame_keeps_moves_witness :
  exists game a,
    parseChessComGame sampleLoadPgn (sampleGame "g1" "1. e4 e5") = Some game
    /\ analyzeGame sampleLoadPgn (list string) [] sampleMove sampleFen
         sampleEvaluate game "bob" = Some a
    /\ san <$> moves a = ["e4"; "e5"; "Nf3"; "Nc6"]
    /\ playerColor a = colorBlack
    /\ exists ms, extractMovesFromPgn sampleLoadPgn (gamePgn game) = Some ms
         /\ Forall2 sameMove ms (moves a).
Proof.
  eexists. eexists. split; [reflexivity|]. split; [reflexivity|].
  split; [reflexivity|]. split; [reflexivity|].
  match goal with
  | |- exists ms, _ /\ Forall2 sameMove ms (moves ?a) =>
      destruct (analyzeGame_keeps_moves sampleLoadPgn (list string) []
                  sampleMove sampleFen sampleEvaluate
                  (mkGame "g1" EmptyString "1. e4 e5" "600" "rapid"
                     1700000000000 true (mkPlayer "alice" 1500 "win")
                     (mkPlayer "bob" 1480 "resigned") "chess")
                  "bob" a eq_refl) as (ms & Hx & Hall & _);
      exists ms; split; [exact Hx|exact Hall]
  end.
Defined.

End Examples.
